(** * git-releaser: the version bumper of [new_release.py]

    A shallow embedding of the class [NewRelease] and of the Python
    built-ins it calls, followed by the properties of the bump workflow:
    read the version of [setup.py], validate the bump, compute the next
    version, rewrite the manifest, commit and tag. *)

From Stdlib Require Import String.
From Stdlib Require Import List Ascii ZArith NArith Bool Lia.
From Stdlib Require Import DecimalPos DecimalN.
Import ListNotations.

Local Open Scope char_scope.
Local Open Scope list_scope.

(** ** Python strings

    A [str] is the sequence of its characters. A character is a code
    point below 256, which covers every character class the program
    tests (ASCII digits, the dot, white space). *)

Definition str := list ascii.

(** A string literal of the source. *)
Definition lit (s : String.string) : str := String.list_ascii_of_string s.
Arguments lit s%_string.

Definition code (c : ascii) : N := N_of_ascii c.

(** The newline character ['\n']. *)
Definition NL : ascii := "010".

(** The carriage return ['\r']. *)
Definition CR : ascii := "013".

Module Py.

(** *** Character classes *)

(** The regular-expression class [[0-9]]. *)
Definition is_digit (c : ascii) : bool :=
  ((48 <=? code c) && (code c <=? 57))%N.

(** [str.isspace] on one character, the set [str.strip()] removes:
    U+0009..U+000D, U+001C..U+001F, U+0020, U+0085 and U+00A0. *)
Definition isspace (c : ascii) : bool :=
  let n := code c in
  (((9 <=? n) && (n <=? 13)) || ((28 <=? n) && (n <=? 31))
   || (n =? 32) || (n =? 133) || (n =? 160))%N.

(** The white space [int()] skips around a literal: the ASCII set
    U+0009..U+000D and U+0020, and the non-ASCII space characters. *)
Definition int_isspace (c : ascii) : bool :=
  let n := code c in
  (((9 <=? n) && (n <=? 13)) || (n =? 32) || (n =? 133) || (n =? 160))%N.

(** *** [str] methods *)

Fixpoint dropwhile (f : ascii -> bool) (s : str) : str :=
  match s with
  | c :: s' => if f c then dropwhile f s' else s
  | [] => []
  end.

Fixpoint takewhile (f : ascii -> bool) (s : str) : str :=
  match s with
  | c :: s' => if f c then c :: takewhile f s' else []
  | [] => []
  end.

Definition lstrip_with (f : ascii -> bool) (s : str) : str := dropwhile f s.

Definition rstrip_with (f : ascii -> bool) (s : str) : str :=
  rev (dropwhile f (rev s)).

(** [s.strip()] *)
Definition strip (s : str) : str :=
  lstrip_with isspace (rstrip_with isspace s).

Fixpoint str_eqb (a b : str) : bool :=
  match a, b with
  | [], [] => true
  | x :: a', y :: b' => Ascii.eqb x y && str_eqb a' b'
  | _, _ => false
  end.

(** [s.startswith(p)] *)
Fixpoint startswith (p s : str) : bool :=
  match p, s with
  | [], _ => true
  | x :: p', y :: s' => Ascii.eqb x y && startswith p' s'
  | _ :: _, [] => false
  end.

(** [sub in s] *)
Fixpoint contains (sub s : str) : bool :=
  startswith sub s ||
  match s with
  | [] => false
  | _ :: s' => contains sub s'
  end.

(** [s.replace(old, new)] for a non-empty [old]: the occurrences of
    [old] are found from left to right and do not overlap. [skip]
    counts the characters of the occurrence just replaced that are
    still to be passed over. *)
Fixpoint replace_go (old new : str) (skip : nat) (s : str) : str :=
  match s with
  | [] => []
  | c :: s' =>
      match skip with
      | S k => replace_go old new k s'
      | O =>
          if startswith old s
          then new ++ replace_go old new (length old - 1) s'
          else c :: replace_go old new 0 s'
      end
  end.

(** [s.replace(old, new)]; an empty [old] matches before every
    character and at the end. *)
Definition replace (old new s : str) : str :=
  match old with
  | [] => new ++ flat_map (fun c => c :: new) s
  | _ :: _ => replace_go old new 0 s
  end.

(** [s.split(sep)] for a separator of one character. *)
Fixpoint split (sep : ascii) (s : str) : list str :=
  match s with
  | [] => [[]]
  | c :: s' =>
      if Ascii.eqb c sep then [] :: split sep s'
      else match split sep s' with
           | w :: ws => (c :: w) :: ws
           | [] => [[c]]
           end
  end.

(** The lines a text file yields when iterated: every line keeps its
    terminating ['\n'], the last one may lack it. *)
Fixpoint readlines (text : str) : list str :=
  match text with
  | [] => []
  | c :: text' =>
      if Ascii.eqb c NL then [c] :: readlines text'
      else match readlines text' with
           | l :: ls => (c :: l) :: ls
           | [] => [[c]]
           end
  end.

(** Text-mode input, as [open(path)] does it (universal newlines):
    the line ends ['\r\n'] and ['\r'] of the file are both read as
    ['\n']. [after_cr] tells whether the byte before was a ['\r']. *)
Fixpoint read_newlines (after_cr : bool) (raw : str) : str :=
  match raw with
  | [] => []
  | c :: raw' =>
      if Ascii.eqb c CR then NL :: read_newlines true raw'
      else if Ascii.eqb c NL
           then if after_cr then read_newlines false raw'
                else NL :: read_newlines false raw'
           else c :: read_newlines false raw'
  end.

Definition universal_newlines (raw : str) : str := read_newlines false raw.

(** Text-mode output, as [open(path, 'w')] does it: every ['\n']
    written goes to the file as [os.linesep]. *)
Fixpoint write_newlines (linesep text : str) : str :=
  match text with
  | [] => []
  | c :: text' =>
      if Ascii.eqb c NL then linesep ++ write_newlines linesep text'
      else c :: write_newlines linesep text'
  end.

(** *** Integers *)

Definition digit_value (c : ascii) : N := (code c - 48)%N.

(** The digits of a decimal literal after the sign, with the single
    underscores Python allows between two digits. [prev] tells whether
    the previous character was a digit. *)
Fixpoint parse_digits (acc : N) (prev : bool) (s : str) : option N :=
  match s with
  | [] => if prev then Some acc else None
  | c :: s' =>
      if is_digit c then parse_digits (10 * acc + digit_value c)%N true s'
      else if Ascii.eqb c "_" && prev then parse_digits acc false s'
      else None
  end.

(** [sys.int_max_str_digits] at its default: the most digits a
    conversion between [int] and [str] accepts. *)
Definition INT_MAX_STR_DIGITS : nat := 4300.

(** The digits of a literal, leading zeros included, underscores
    left out. *)
Definition digit_count (s : str) : nat := length (filter is_digit s).

(** The number behind the sign: refused when the literal has more
    digits than the limit. *)
Definition convert_digits (body : str) : option N :=
  if Nat.ltb INT_MAX_STR_DIGITS (digit_count body) then None
  else parse_digits 0 false body.

(** [int(s)] for a [str]: [None] stands for [ValueError], raised for a
    text that is no literal and for one with too many digits. *)
Definition int_of_str (s : str) : option Z :=
  let t := lstrip_with int_isspace (rstrip_with int_isspace s) in
  match t with
  | "-" :: body => option_map (fun n => (- Z.of_N n)%Z) (convert_digits body)
  | "+" :: body => option_map Z.of_N (convert_digits body)
  | _ => option_map Z.of_N (convert_digits t)
  end.

Fixpoint chars_of_uint (d : Decimal.uint) : str :=
  match d with
  | Decimal.Nil => []
  | Decimal.D0 d' => "0" :: chars_of_uint d'
  | Decimal.D1 d' => "1" :: chars_of_uint d'
  | Decimal.D2 d' => "2" :: chars_of_uint d'
  | Decimal.D3 d' => "3" :: chars_of_uint d'
  | Decimal.D4 d' => "4" :: chars_of_uint d'
  | Decimal.D5 d' => "5" :: chars_of_uint d'
  | Decimal.D6 d' => "6" :: chars_of_uint d'
  | Decimal.D7 d' => "7" :: chars_of_uint d'
  | Decimal.D8 d' => "8" :: chars_of_uint d'
  | Decimal.D9 d' => "9" :: chars_of_uint d'
  end.

(** The decimal text of an integer. *)
Definition decimal (z : Z) : str :=
  match z with
  | Z0 => ["0"]
  | Zpos p => chars_of_uint (Pos.to_uint p)
  | Zneg p => "-" :: chars_of_uint (Pos.to_uint p)
  end.

(** [str(n)] for an [int]: [None] stands for [ValueError], raised when
    the text would have more digits than the limit. *)
Definition str_of_int (z : Z) : option str :=
  let text := decimal z in
  let digits := match z with
                | Zneg _ => length text - 1   (* the sign is not counted *)
                | _ => length text
                end in
  if Nat.ltb INT_MAX_STR_DIGITS digits then None else Some text.

(** *** The [re] module, for the patterns of the program

    A pattern is a sequence of atoms. The matcher is the backtracking
    one of [re]: a greedy [+] first tries to take one more character
    and gives characters back only when the rest of the pattern
    fails. *)

Inductive atom : Type :=
| Bol                           (* ^ : at the start of the string *)
| Eol                           (* $ : at the end, or before a final newline *)
| Chr (c : ascii)               (* an escaped literal such as \. *)
| Plus (cls : ascii -> bool).   (* [class]+ , greedy *)

Definition pattern := list atom.

Definition at_eol (s : str) : bool :=
  match s with
  | [] => true
  | [c] => Ascii.eqb c NL
  | _ => false
  end.

(** [match_here p bos s]: match [p] at the head of [s]; [bos] tells
    whether the head of [s] is the start of the subject string. The
    result is what is left of [s] after the match. *)
Fixpoint match_here (p : pattern) : bool -> str -> option str :=
  match p with
  | [] => fun _ s => Some s
  | Bol :: r => fun bos s => if bos then match_here r bos s else None
  | Eol :: r => fun bos s => if at_eol s then match_here r bos s else None
  | Chr c :: r => fun _ s =>
      match s with
      | x :: s' => if Ascii.eqb x c then match_here r false s' else None
      | [] => None
      end
  | Plus cls :: r => fun _ =>
      fix more (s : str) : option str :=
        match s with
        | x :: s' =>
            if cls x then
              match more s' with
              | Some rest => Some rest
              | None => match_here r false s'
              end
            else None
        | [] => None
        end
  end.

(** The text of a match of [s] that leaves [rest]: [m.group(0)]. *)
Definition group0 (s rest : str) : str :=
  firstn (length s - length rest) s.

Fixpoint search_from (p : pattern) (bos : bool) (s : str) : option str :=
  match match_here p bos s with
  | Some rest => Some (group0 s rest)
  | None =>
      match s with
      | [] => None
      | _ :: s' => search_from p false s'
      end
  end.

(** [re.search(p, s)]: the leftmost match, [None] when there is none. *)
Definition re_search (p : pattern) (s : str) : option str :=
  search_from p true s.

(** [re.compile(p).match(s)]: a match at the start of [s] only. *)
Definition re_match (p : pattern) (s : str) : option str :=
  option_map (group0 s) (match_here p true s).

End Py.

(** ** Exceptions and effects *)

(** The exceptions a run can end with. [NewReleaseError] is the one
    exception class the module defines; the others are raised by the
    built-ins and by the git library. *)
Inductive exn : Type :=
| NewReleaseError (msg : str)
| TypeError
| ValueError
| FileNotFoundError
| InvalidGitRepositoryError
| GitCommandError.

(** The outcome of a call: an exception or a value. *)
Definition result (A : Type) : Type := (exn + A)%type.

Definition ok {A : Type} (a : A) : result A := inr a.
Definition raise {A : Type} (e : exn) : result A := inl e.

Definition bind_result {A B : Type} (r : result A) (k : A -> result B) : result B :=
  match r with
  | inl e => inl e
  | inr a => k a
  end.

(** What a run does to the outside, in the order it does it. *)
Inductive effect : Type :=
| WriteFile (path content : str)    (* open(path, 'w') and the writes *)
| GitAdd (path : str)               (* repo.git.add(path) *)
| GitCommit (message : str)         (* repo.git.commit(m=message) *)
| CreateTag (name : str)            (* repo.create_tag(name) *)
| Print (text : str).               (* print(text) *)

(** The working directory as the program sees it: the text of
    [setup.py] ([None] when the file does not exist), whether the
    directory is a git repository, and the effects performed so far.
    The text of a file is what text-mode input yields, with every line
    ending read as ['\n']. *)
Record world : Type := mkWorld {
  setup_py : option str;
  is_repo : bool;
  trace : list effect
}.

Definition record (e : effect) (w : world) : world :=
  mkWorld (setup_py w) (is_repo w) (trace w ++ [e]).

(** A computation reads and changes the world and ends with a value or
    an exception; the changes made before an exception stay. *)
Definition M (A : Type) : Type := world -> result A * world.

Definition ret {A : Type} (a : A) : M A := fun w => (ok a, w).
Definition throw {A : Type} (e : exn) : M A := fun w => (raise e, w).
Definition lift {A : Type} (r : result A) : M A := fun w => (r, w).

Definition bind {A B : Type} (m : M A) (k : A -> M B) : M B :=
  fun w =>
    match m w with
    | (inl e, w') => (inl e, w')
    | (inr a, w') => k a w'
    end.

Declare Scope py_scope.
Delimit Scope py_scope with py.
Notation "x <- m ;; k" := (bind m (fun x => k))
  (at level 61, m at next level, right associativity) : py_scope.
Notation "m ;; k" := (bind m (fun _ => k))
  (at level 61, right associativity) : py_scope.
Notation "x <-- r ;; k" := (bind_result r (fun x => k))
  (at level 61, r at next level, right associativity) : py_scope.

Local Open Scope py_scope.

(** A value held by one of the variables [major], [minor], [patch] of
    [next_version]: the text split off the version, or an [int] once
    the component has been bumped or reset. *)
Inductive pyval : Type :=
| VStr (s : str)
| VInt (z : Z).

(** [int(v)] *)
Definition py_int (v : pyval) : result Z :=
  match v with
  | VInt z => ok z
  | VStr s =>
      match Py.int_of_str s with
      | Some z => ok z
      | None => raise ValueError
      end
  end.

(** What a [{}] field of [str.format] prints for [v]. *)
Definition format_field (v : pyval) : result str :=
  match v with
  | VStr s => ok s
  | VInt z =>
      match Py.str_of_int z with
      | Some text => ok text
      | None => raise ValueError
      end
  end.

(** [repr] of a string without quotes, backslashes or control
    characters, and of a list of such strings. *)
Definition repr_str (s : str) : str := "'" :: s ++ ["'"].

Fixpoint join (sep : str) (l : list str) : str :=
  match l with
  | [] => []
  | [s] => s
  | s :: l' => s ++ sep ++ join sep l'
  end.

Definition repr_list (l : list str) : str :=
  "[" :: join (lit ", ") (map repr_str l) ++ ["]"].

(** ** The class [NewRelease] *)

(** [__VERSION_STRING = '[0-9]+\.[0-9]+\.[0-9]+'] *)
Definition VERSION_STRING : Py.pattern :=
  [Py.Plus Py.is_digit; Py.Chr "."; Py.Plus Py.is_digit; Py.Chr ".";
   Py.Plus Py.is_digit].

(** ['^{}$'.format(__VERSION_STRING)] *)
Definition ANCHORED_VERSION_STRING : Py.pattern :=
  Py.Bol :: VERSION_STRING ++ [Py.Eol].

Definition BUMP_VERSIONS : list str := [lit "major"; lit "minor"; lit "patch"].

Definition SETUP_FILE : str := lit "setup.py".

(** An instance: [self.current_version]. The attribute [self.repo] is
    the repository of the working directory, which [world] holds. *)
Record NewRelease : Type := mkNewRelease {
  current_version : str
}.

(** [get_version_from_line]: [re.search] gives [None] when nothing
    matches, [.group(0)] then raises [AttributeError], which the
    handler turns into the result [None]. *)
Definition get_version_from_line (line : str) : option str :=
  match Py.re_search VERSION_STRING line with
  | Some version => Some version
  | None => None
  end.

(** [validate_release_number]: [regex.match] of a [None] argument
    raises [TypeError]. *)
Definition validate_release_number (version : option str) : result unit :=
  match version with
  | None => raise TypeError
  | Some v =>
      match Py.re_match ANCHORED_VERSION_STRING v with
      | None => raise (NewReleaseError (lit "Invalid release version: " ++ v))
      | Some _ => ok tt
      end
  end.

(** [release in self.__BUMP_VERSIONS] *)
Definition in_list (x : str) (l : list str) : bool := existsb (Py.str_eqb x) l.

Definition validate_release (release : str) : result unit :=
  if negb (in_list release BUMP_VERSIONS)
  then raise (NewReleaseError
                (lit "Not a valid release. Should be one of " ++ repr_list BUMP_VERSIONS))
  else ok tt.

Definition next_version (self : NewRelease) (release : str) : result str :=
  match Py.split "." (current_version self) with
  | [major; minor; patch] =>
      v1 <-- (if Py.str_eqb release (lit "major")
              then i <-- py_int (VStr major) ;;
                   ok (VInt (i + 1), VInt 0, VInt 0)
              else ok (VStr major, VStr minor, VStr patch)) ;;
      v2 <-- (let '(major, minor, patch) := v1 in
              if Py.str_eqb release (lit "minor")
              then i <-- py_int minor ;;
                   ok (major, VInt (i + 1), VInt 0)
              else ok v1) ;;
      v3 <-- (let '(major, minor, patch) := v2 in
              if Py.str_eqb release (lit "patch")
              then i <-- py_int patch ;;
                   ok (major, minor, VInt (i + 1))
              else ok v2) ;;
      let '(major, minor, patch) := v3 in
      major <-- format_field major ;;
      minor <-- format_field minor ;;
      patch <-- format_field patch ;;
      ok (major ++ "." :: minor ++ "." :: patch)
  | _ => raise ValueError   (* unpacking needs exactly three parts *)
  end.

(** The loop of [extract_current_version]: the first line that
    contains ['version='] decides. *)
Fixpoint scan_version (lines : list str) : option str :=
  match lines with
  | [] => None
  | line :: rest =>
      if Py.contains (lit "version=") line
      then get_version_from_line line
      else scan_version rest
  end.

(** The loop of [update_setup_file] that fills [lines]. *)
Fixpoint rewrite_lines (search_string current next : str)
  (infile : list str) (lines : list str) : list str :=
  match infile with
  | [] => lines
  | line :: rest =>
      let line' :=
        if Py.str_eqb (Py.strip line) search_string
        then Py.replace current next line
        else line in
      rewrite_lines search_string current next rest (lines ++ [line'])
  end.

(** The loop that writes the lines out, one [write] after the other. *)
Definition written (lines : list str) : str :=
  fold_left (fun text line => text ++ line) lines [].

(** [open(self.__SETUP_FILE)] and the iteration over its lines. *)
Definition read_setup_file : M (list str) :=
  fun w =>
    match setup_py w with
    | None => (raise FileNotFoundError, w)
    | Some text => (ok (Py.readlines text), w)
    end.

(** [open(self.__SETUP_FILE, 'w')] and the writes. *)
Definition write_setup_file (lines : list str) : M unit :=
  fun w =>
    let text := written lines in
    (ok tt, record (WriteFile SETUP_FILE text)
              (mkWorld (Some text) (is_repo w) (trace w))).

(** [git.Repo(os.getcwd())] *)
Definition open_repo : M unit :=
  fun w => if is_repo w then (ok tt, w) else (raise InvalidGitRepositoryError, w).

Definition print (text : str) : M unit :=
  fun w => (ok tt, record (Print text) w).

Section Program.

(** Whether git carries out a command in a given state (a commit with
    nothing staged and a tag that exists are refused, for instance). *)
Variable git_accepts : effect -> world -> bool.

Definition git (e : effect) : M unit :=
  fun w =>
    if git_accepts e w then (ok tt, record e w)
    else (raise GitCommandError, w).

Definition extract_current_version : M str :=
  lines <- read_setup_file ;;
  let current_version := scan_version lines in
  lift (validate_release_number current_version) ;;
  match current_version with
  | Some v => ret v
  | None => throw TypeError   (* not reached: the validation has raised *)
  end.

(** [__init__] *)
Definition init : M NewRelease :=
  v <- extract_current_version ;;
  open_repo ;;
  ret (mkNewRelease v).

Definition update_git (new_version : str) : M unit :=
  let commit_message := lit "New release: v" ++ new_version in
  git (GitCommit commit_message) ;;
  git (CreateTag ("v" :: new_version)).

Definition update_setup_file (self : NewRelease) (next_version : str) : M unit :=
  let search_string := lit "version='" ++ current_version self ++ lit "'," in
  infile <- read_setup_file ;;
  let lines := rewrite_lines search_string (current_version self) next_version
                 infile [] in
  write_setup_file lines ;;
  git (GitAdd SETUP_FILE).

Definition update_version (self : NewRelease) (release : str) : M unit :=
  lift (validate_release release) ;;
  next <- lift (next_version self release) ;;
  update_setup_file self next ;;
  update_git next ;;
  print (lit "Old version: " ++ current_version self
           ++ lit ", new version: " ++ next).

(** The script: [sys.argv] with the program name first. *)
Definition main (argv : list str) : M unit :=
  match argv with
  | [_; release] => self <- init ;; update_version self release
  | _ => print (lit "Specify release version or bump: major/minor/patch")
  end.

End Program.

(** ** Versions, as the specification describes them *)

(** A non-empty run of ASCII digits. *)
Definition digits (s : str) : Prop :=
  s <> [] /\ forallb Py.is_digit s = true.

(** The strings that match [[0-9]+\.[0-9]+\.[0-9]+] from the first to
    the last character. *)
Definition is_version (s : str) : Prop :=
  exists a b c, digits a /\ digits b /\ digits c /\ s = a ++ "." :: b ++ "." :: c.

(** One more digit to the right of a number. *)
Definition step (acc : N) (c : ascii) : N := (10 * acc + Py.digit_value c)%N.

(** The number a run of digits denotes. *)
Definition number (s : str) : Z := Z.of_N (fold_left step s 0%N).

(** The kinds of release and the table of the bump. *)
Inductive kind : Type := Major | Minor | Patch.

Definition kind_name (k : kind) : str :=
  match k with
  | Major => lit "major"
  | Minor => lit "minor"
  | Patch => lit "patch"
  end.

Definition bump (k : kind) (v : Z * Z * Z) : Z * Z * Z :=
  let '(major, minor, patch) := v in
  match k with
  | Major => (major + 1, 0, 0)%Z
  | Minor => (major, minor + 1, 0)%Z
  | Patch => (major, minor, patch + 1)%Z
  end.

(** The triple a version string denotes, component by component. *)
Definition triple_of (s : str) : option (Z * Z * Z) :=
  match Py.split "." s with
  | [a; b; c] => Some (number a, number b, number c)
  | _ => None
  end.

(** The text [next_version] builds from the three components. *)
Definition bumped (k : kind) (a b c : str) : str :=
  match k with
  | Major => Py.decimal (number a + 1) ++ "." :: lit "0" ++ "." :: lit "0"
  | Minor => a ++ "." :: Py.decimal (number b + 1) ++ "." :: lit "0"
  | Patch => a ++ "." :: b ++ "." :: Py.decimal (number c + 1)
  end.

(** The component a release bumps. *)
Definition part (k : kind) (a b c : str) : str :=
  match k with
  | Major => a
  | Minor => b
  | Patch => c
  end.

(** A component can be bumped within the limit of the conversions:
    it has no more digits than [int] reads, and neither has its
    successor, which [format] prints. *)
Definition within_limit (x : str) : bool :=
  Nat.leb (length x) Py.INT_MAX_STR_DIGITS
  && Nat.leb (length (Py.decimal (number x + 1))) Py.INT_MAX_STR_DIGITS.

(** The same for the component of a version that a release bumps. *)
Definition bump_within_limit (k : kind) (v : str) : bool :=
  match Py.split "." v with
  | [a; b; c] => within_limit (part k a b c)
  | _ => false
  end.

(** The same for two bumps in a row: the successor of the successor
    is printed by the second bump. *)
Definition bump_twice_within_limit (k : kind) (v : str) : bool :=
  match Py.split "." v with
  | [a; b; c] =>
      within_limit (part k a b c)
      && Nat.leb (length (Py.decimal (number (part k a b c) + 2)))
           Py.INT_MAX_STR_DIGITS
  | _ => false
  end.

(** Over-long versions: 4301 digits in one component. *)
Definition zeros : str := repeat "0" 4300.

Definition long_major : str := zeros ++ lit "1.2.3".
Definition long_minor : str := lit "1." ++ zeros ++ lit "2.3".
Definition long_patch : str := lit "1.2." ++ zeros ++ lit "3".

(** ** The manifest, as the specification describes it *)

(** [version='<v>',], the text [update_setup_file] looks for. *)
Definition version_line (v : str) : str := lit "version='" ++ v ++ lit "',".

(** What the loop of [update_setup_file] does to one line. *)
Definition rewrite_line (search_string current next line : str) : str :=
  if Py.str_eqb (Py.strip line) search_string
  then Py.replace current next line
  else line.

(** A text without any digit. *)
Definition no_digit (s : str) : bool := forallb (fun c => negb (Py.is_digit c)) s.

(** The shape of the lines of a file: every line but the last ends
    with its only newline; the last line may lack it, and is not
    empty. *)
Inductive lines_ok : list str -> Prop :=
| lines_ok_nil : lines_ok []
| lines_ok_last (body : str) :
    ~ In NL body -> body <> [] -> lines_ok [body]
| lines_ok_cons (body : str) (ls : list str) :
    ~ In NL body -> lines_ok ls -> lines_ok ((body ++ [NL]) :: ls).

(** ** Sample runs *)

(** A manifest without any [version=] line, and one whose version has
    two components only. *)
Definition manifest_without_version : str :=
  lit "setup(" ++ [NL] ++ lit "    name='gi-releaser'," ++ [NL] ++ lit ")" ++ [NL].

Definition manifest_short_version : str :=
  lit "setup(" ++ [NL] ++ lit "    version='1.2'," ++ [NL] ++ lit ")" ++ [NL].

(** A manifest with the version line between two other lines. *)
Definition manifest_1_2_3 : str :=
  lit "    name='gi-releaser'," ++ [NL] ++ lit "    version='1.2.3'," ++ [NL]
    ++ lit "    zip_safe=False," ++ [NL].


(** A git that accepts every command. *)
Definition git_always : effect -> world -> bool := fun _ _ => true.

(** The bytes of [setup.py] after [update_setup_file], for a file that
    held the ASCII bytes [raw], where [os.linesep] is [linesep]: the
    text the program sees is the file read in text mode, and the file
    it leaves is the written text put out in text mode. *)
Definition rewritten_bytes (linesep : str) (self : NewRelease) (next raw : str)
  : option str :=
  option_map (Py.write_newlines linesep)
    (setup_py (snd (update_setup_file git_always self next
                      (mkWorld (Some (Py.universal_newlines raw)) true [])))).

(** A manifest with the line ends ['\r\n'], and one with the line
    ends ['\r'] and no version line. *)
Definition manifest_crlf : str :=
  lit "name='x'," ++ [CR; NL] ++ lit "version='1.2.3'," ++ [CR; NL].


(** ** Further notions for the properties of the workflow *)

(** A line holds a version somewhere. *)
Definition has_version (line : str) : Prop :=
  exists p v q, line = p ++ v ++ q /\ is_version v.

(** The number of dots of a string. *)
Definition dots (s : str) : nat := count_occ ascii_dec s ".".

(** The order of versions: by major, then minor, then patch. *)
Definition version_lt (t u : Z * Z * Z) : Prop :=
  let '(a, b, c) := t in
  let '(a', b', c') := u in
  (a < a' \/ (a = a' /\ (b < b' \/ (b = b' /\ c < c'))))%Z.

(** The order of a kind of release: patch below minor below major. *)
Definition rank (k : kind) : nat :=
  match k with
  | Patch => 0
  | Minor => 1
  | Major => 2
  end.

(** The first line of a file that contains ['version=']: the line at
    which the loop of [extract_current_version] stops. *)
Definition version_line_of (lines : list str) : option str :=
  find (Py.contains (lit "version=")) lines.

(** The message [update_version] prints. *)
Definition report (old new : str) : str :=
  lit "Old version: " ++ old ++ lit ", new version: " ++ new.

(** The usage message of the script. *)
Definition USAGE : str := lit "Specify release version or bump: major/minor/patch".

(** A git that refuses every commit and accepts the rest, and one that
    refuses every tag. *)
Definition git_no_commit : effect -> world -> bool :=
  fun e _ => match e with GitCommit _ => false | _ => true end.

Definition git_no_tag : effect -> world -> bool :=
  fun e _ => match e with CreateTag _ => false | _ => true end.

(** The text of the [setup.py] of the repository itself. *)
Definition repo_setup_py : str :=
  let q := "034" in
  [q; q; q; NL]
  ++ lit "Setup file for clotho package" ++ [NL]
  ++ [q; q; q; NL]
  ++ lit "from setuptools import (" ++ [NL]
  ++ lit "    setup," ++ [NL]
  ++ lit "    find_packages," ++ [NL]
  ++ lit ")" ++ [NL]
  ++ [NL]
  ++ [NL]
  ++ lit "PACKAGES = find_packages()" ++ [NL]
  ++ [NL]
  ++ [NL]
  ++ lit "setup(" ++ [NL]
  ++ lit "    name='gi-releaser'," ++ [NL]
  ++ lit "    version='0.0.1'," ++ [NL]
  ++ lit "    description='Release script for bumping git tag and create commit'," ++ [NL]
  ++ lit "    url=''," ++ [NL]
  ++ lit "    author='Andr" ++ ["233"] ++ lit " Engstr" ++ ["246"] ++ lit "m'," ++ [NL]
  ++ lit "    author_email='anmien89@gmail.com'," ++ [NL]
  ++ lit "    license='GNU GPL'," ++ [NL]
  ++ lit "    packages=PACKAGES," ++ [NL]
  ++ lit "    install_requires=[" ++ [NL]
  ++ lit "        'GitPython'," ++ [NL]
  ++ lit "    ]," ++ [NL]
  ++ lit "    zip_safe=False," ++ [NL]
  ++ lit ")".

(** ** Characters *)

Lemma ascii_eqb_refl (c : ascii) : Ascii.eqb c c = true.
Proof. apply Ascii.eqb_eq. reflexivity. Qed.

Lemma digit_not_dot (c : ascii) : Py.is_digit c = true -> Ascii.eqb c "." = false.
Proof.
  destruct c as [[] [] [] [] [] [] [] []]; vm_compute; congruence.
Qed.

Lemma digit_not_newline (c : ascii) : Py.is_digit c = true -> Ascii.eqb c NL = false.
Proof.
  destruct c as [[] [] [] [] [] [] [] []]; vm_compute; congruence.
Qed.

Lemma digit_not_space (c : ascii) : Py.is_digit c = true -> Py.isspace c = false.
Proof.
  destruct c as [[] [] [] [] [] [] [] []]; vm_compute; congruence.
Qed.

Lemma digit_not_int_space (c : ascii) :
  Py.is_digit c = true -> Py.int_isspace c = false.
Proof.
  destruct c as [[] [] [] [] [] [] [] []]; vm_compute; congruence.
Qed.

Lemma digit_not_sign (c : ascii) :
  Py.is_digit c = true -> c <> "-" /\ c <> "+".
Proof.
  destruct c as [[] [] [] [] [] [] [] []]; vm_compute; split; congruence.
Qed.

Lemma str_eqb_eq (a b : str) : Py.str_eqb a b = true <-> a = b.
Proof.
  revert b. induction a as [|x a IH]; intros [|y b]; simpl; split;
    try congruence; try reflexivity.
  - intros H. apply andb_true_iff in H as [Hx Ha].
    apply Ascii.eqb_eq in Hx. apply IH in Ha. congruence.
  - intros H. injection H as -> ->. rewrite ascii_eqb_refl. simpl.
    apply IH. reflexivity.
Qed.

Lemma str_eqb_refl (a : str) : Py.str_eqb a a = true.
Proof. apply str_eqb_eq. reflexivity. Qed.

Lemma str_eqb_neq (a b : str) : Py.str_eqb a b = false <-> a <> b.
Proof.
  split.
  - intros H E. apply str_eqb_eq in E. congruence.
  - intros H. destruct (Py.str_eqb a b) eqn:E; [|reflexivity].
    apply str_eqb_eq in E. contradiction.
Qed.

(** ** The matcher on the version pattern *)

Lemma plus_cons (cls : ascii -> bool) (r : Py.pattern) (bos : bool) (x : ascii) (s : str) :
  Py.match_here (Py.Plus cls :: r) bos (x :: s) =
  if cls x then
    match Py.match_here (Py.Plus cls :: r) false s with
    | Some rest => Some rest
    | None => Py.match_here r false s
    end
  else None.
Proof. reflexivity. Qed.

Lemma plus_nil (cls : ascii -> bool) (r : Py.pattern) (bos : bool) :
  Py.match_here (Py.Plus cls :: r) bos [] = None.
Proof. reflexivity. Qed.

(** A match of [class+ r] is a non-empty run of the class followed by a
    match of [r]. *)
Lemma plus_sound (cls : ascii -> bool) (r : Py.pattern) (s : str) :
  forall bos rest,
    Py.match_here (Py.Plus cls :: r) bos s = Some rest ->
    exists a s', a <> [] /\ forallb cls a = true /\ s = a ++ s' /\
                 Py.match_here r false s' = Some rest.
Proof.
  induction s as [|x s IH]; intros bos rest H.
  - rewrite plus_nil in H. discriminate.
  - rewrite plus_cons in H. destruct (cls x) eqn:Hx; [|discriminate].
    destruct (Py.match_here (Py.Plus cls :: r) false s) as [rest'|] eqn:Hm.
    + injection H as ->.
      destruct (IH false rest Hm) as (a & s' & Ha & Hall & -> & Hr).
      exists (x :: a), s'. simpl. rewrite Hx, Hall. repeat split; congruence.
    + exists [x], s. simpl. rewrite Hx. repeat split; congruence.
Qed.

(** When [r] cannot start with a character of the class, [class+ r]
    takes the whole run and gives nothing back. *)
Lemma plus_greedy (cls : ascii -> bool) (r : Py.pattern) (a s : str) :
  a <> [] -> forallb cls a = true ->
  (forall x t, s = x :: t -> cls x = false) ->
  (forall x t b, cls x = true -> Py.match_here r b (x :: t) = None) ->
  forall bos, Py.match_here (Py.Plus cls :: r) bos (a ++ s) = Py.match_here r false s.
Proof.
  intros Ha Hall Hs Hr.
  induction a as [|x a IH]; [congruence|]. intros bos.
  simpl in Hall. apply andb_true_iff in Hall as [Hx Hall].
  simpl app. rewrite plus_cons, Hx.
  destruct a as [|y a].
  - change ([] ++ s) with s. destruct s as [|z s].
    + rewrite plus_nil. reflexivity.
    + rewrite plus_cons, (Hs z s eq_refl). reflexivity.
  - rewrite (IH ltac:(discriminate) Hall false).
    destruct (Py.match_here r false s) eqn:E; [reflexivity|].
    simpl in Hall. apply andb_true_iff in Hall as [Hy _].
    simpl app. apply Hr. exact Hy.
Qed.

(** The last [class+] of a pattern matches whenever one character of
    the class is there. *)
Lemma plus_last (cls : ascii -> bool) (x : ascii) (s : str) (bos : bool) :
  cls x = true -> Py.match_here [Py.Plus cls] bos (x :: s) <> None.
Proof.
  intros Hx. rewrite plus_cons, Hx.
  destruct (Py.match_here [Py.Plus cls] false s); simpl; discriminate.
Qed.

Lemma chr_dot_digit (r : Py.pattern) (x : ascii) (t : str) (b : bool) :
  Py.is_digit x = true -> Py.match_here (Py.Chr "." :: r) b (x :: t) = None.
Proof.
  intros Hx. simpl. rewrite (digit_not_dot x Hx). reflexivity.
Qed.

Lemma eol_digit (x : ascii) (t : str) (b : bool) :
  Py.is_digit x = true -> Py.match_here [Py.Eol] b (x :: t) = None.
Proof.
  intros Hx. simpl. destruct t; [|reflexivity].
  rewrite (digit_not_newline x Hx). reflexivity.
Qed.

Lemma dot_not_digit (x : ascii) (t s : str) :
  "." :: s = x :: t -> Py.is_digit x = false.
Proof. intros H. injection H as <- _. reflexivity. Qed.

Lemma chr_cons (c : ascii) (r : Py.pattern) (bos : bool) (x : ascii) (s : str) :
  Py.match_here (Py.Chr c :: r) bos (x :: s) =
  if Ascii.eqb x c then Py.match_here r false s else None.
Proof. reflexivity. Qed.

Lemma chr_nil (c : ascii) (r : Py.pattern) (bos : bool) :
  Py.match_here (Py.Chr c :: r) bos [] = None.
Proof. reflexivity. Qed.

Lemma chr_sound (c : ascii) (r : Py.pattern) (bos : bool) (s rest : str) :
  Py.match_here (Py.Chr c :: r) bos s = Some rest ->
  exists s', s = c :: s' /\ Py.match_here r false s' = Some rest.
Proof.
  destruct s as [|x s]; [rewrite chr_nil; discriminate|].
  rewrite chr_cons. destruct (Ascii.eqb x c) eqn:E; [|discriminate].
  apply Ascii.eqb_eq in E. subst x. intros H. exists s. split; [reflexivity|exact H].
Qed.

Lemma group0_app (m rest : str) : Py.group0 (m ++ rest) rest = m.
Proof.
  unfold Py.group0. rewrite length_app.
  replace (length m + length rest - length rest) with (length m + 0) by lia.
  rewrite firstn_app_2. simpl. apply app_nil_r.
Qed.

(** Whatever the pattern matches at the head of a string is a version. *)
Lemma version_match_sound (bos : bool) (s rest : str) :
  Py.match_here VERSION_STRING bos s = Some rest ->
  exists m, is_version m /\ s = m ++ rest.
Proof.
  unfold VERSION_STRING. intros H.
  apply plus_sound in H as (a & s1 & Ha & Halla & -> & H).
  apply chr_sound in H as (s2 & -> & H).
  apply plus_sound in H as (b & s3 & Hb & Hallb & -> & H).
  apply chr_sound in H as (s4 & -> & H).
  apply plus_sound in H as (c & s5 & Hc & Hallc & -> & H).
  simpl in H. injection H as ->.
  exists (a ++ "." :: b ++ "." :: c). split.
  - exists a, b, c. unfold digits. repeat split; assumption.
  - repeat (rewrite <- app_assoc; simpl). reflexivity.
Qed.

(** Where a version starts, the pattern matches. *)
Lemma version_match_complete (bos : bool) (m rest : str) :
  is_version m -> Py.match_here VERSION_STRING bos (m ++ rest) <> None.
Proof.
  intros (a & b & c & [Ha Halla] & [Hb Hallb] & [Hc Hallc] & ->).
  unfold VERSION_STRING.
  repeat (rewrite <- app_assoc; simpl app).
  rewrite (plus_greedy _ _ a _ Ha Halla (fun x t => dot_not_digit x t _)
             (fun x t b => chr_dot_digit _ x t b)).
  rewrite chr_cons, ascii_eqb_refl.
  rewrite (plus_greedy _ _ b _ Hb Hallb (fun x t => dot_not_digit x t _)
             (fun x t b => chr_dot_digit _ x t b)).
  rewrite chr_cons, ascii_eqb_refl.
  destruct c as [|x c]; [congruence|].
  simpl in Hallc. apply andb_true_iff in Hallc as [Hx _].
  simpl app. apply plus_last. exact Hx.
Qed.

(** The anchored pattern accepts every version. *)
Lemma anchored_match_version (m : str) :
  is_version m -> Py.match_here ANCHORED_VERSION_STRING true m = Some [].
Proof.
  intros (a & b & c & [Ha Halla] & [Hb Hallb] & [Hc Hallc] & ->).
  unfold ANCHORED_VERSION_STRING, VERSION_STRING. simpl app.
  change (Py.match_here (Py.Bol :: ?r) true ?s) with (Py.match_here r true s).
  rewrite (plus_greedy _ _ a _ Ha Halla (fun x t => dot_not_digit x t _)
             (fun x t b => chr_dot_digit _ x t b)).
  rewrite chr_cons, ascii_eqb_refl.
  rewrite (plus_greedy _ _ b _ Hb Hallb (fun x t => dot_not_digit x t _)
             (fun x t b => chr_dot_digit _ x t b)).
  rewrite chr_cons, ascii_eqb_refl.
  rewrite <- (app_nil_r c).
  rewrite (plus_greedy _ _ c [] Hc Hallc).
  - reflexivity.
  - intros x t E. discriminate.
  - intros x t b0 Hx. apply eol_digit. exact Hx.
Qed.

Lemma validate_version (m : str) :
  is_version m -> validate_release_number (Some m) = ok tt.
Proof.
  intros H. unfold validate_release_number, Py.re_match.
  rewrite (anchored_match_version m H). reflexivity.
Qed.

(** [re.search] with the version pattern returns the leftmost
    substring that is a version. *)
Lemma search_version (s : str) :
  forall bos m,
    Py.search_from VERSION_STRING bos s = Some m ->
    is_version m /\
    exists pre post,
      s = pre ++ m ++ post /\
      forall p v r, s = p ++ v ++ r -> is_version v -> length pre <= length p.
Proof.
  induction s as [|x s IH]; intros bos m H.
  - simpl in H. discriminate.
  - cbn [Py.search_from] in H.
    destruct (Py.match_here VERSION_STRING bos (x :: s)) as [rest|] eqn:Hm.
    + injection H as <-.
      apply version_match_sound in Hm as (v & Hv & E). rewrite E, group0_app.
      split; [exact Hv|]. exists [], rest. split; [reflexivity|].
      intros. simpl. lia.
    + destruct (IH false m H) as (Hv & pre & post & E & Hleft).
      split; [exact Hv|]. exists (x :: pre), post. split.
      * simpl. congruence.
      * intros p v r Ep Hvv. destruct p as [|y p].
        -- simpl in Ep. exfalso.
           apply (version_match_complete bos v r Hvv). rewrite <- Ep. exact Hm.
        -- simpl in Ep. injection Ep as _ Ep. simpl.
           specialize (Hleft p v r Ep Hvv). lia.
Qed.

(** Without any version inside, [re.search] finds nothing; with one,
    it finds something. *)
Lemma search_complete (s : str) :
  forall bos p v r, s = p ++ v ++ r -> is_version v ->
                    Py.search_from VERSION_STRING bos s <> None.
Proof.
  induction s as [|x s IH]; intros bos p v r E Hv.
  - destruct p; [|discriminate]. simpl in E.
    destruct Hv as (a & b & c & [Ha _] & _ & _ & ->).
    destruct a; [congruence|discriminate].
  - cbn [Py.search_from].
    destruct (Py.match_here VERSION_STRING bos (x :: s)) as [rest|] eqn:Hm;
      [discriminate|].
    destruct p as [|y p].
    + exfalso. apply (version_match_complete bos v r Hv).
      simpl in E. rewrite <- E. exact Hm.
    + simpl in E. injection E as _ E. apply (IH false p v r E Hv).
Qed.

(** ** Numbers and their decimal text *)

Lemma number_fold (s : str) : number s = Z.of_N (fold_left step s 0%N).
Proof. reflexivity. Qed.

Lemma parse_digits_run (s : str) :
  forallb Py.is_digit s = true ->
  forall acc prev, s <> [] \/ prev = true ->
                   Py.parse_digits acc prev s = Some (fold_left step s acc).
Proof.
  induction s as [|x s IH]; intros Hall acc prev Hne.
  - destruct Hne as [Hne | ->]; [congruence|reflexivity].
  - simpl in Hall. apply andb_true_iff in Hall as [Hx Hall].
    simpl. rewrite Hx. apply IH; [exact Hall|right; reflexivity].
Qed.

Lemma dropwhile_head (f : ascii -> bool) (x : ascii) (s : str) :
  f x = false -> Py.dropwhile f (x :: s) = x :: s.
Proof. intros H. simpl. rewrite H. reflexivity. Qed.

Lemma forallb_last (f : ascii -> bool) (s : str) (x : ascii) :
  forallb f (s ++ [x]) = true -> f x = true.
Proof.
  rewrite forallb_app. simpl. intros H.
  apply andb_true_iff in H as [_ H]. apply andb_true_iff in H as [H _]. exact H.
Qed.

(** Stripping leaves alone a string whose first and last characters
    are not white space. *)
Lemma strip_with_inner (f : ascii -> bool) (x y : ascii) (s : str) :
  f x = false -> f y = false ->
  Py.lstrip_with f (Py.rstrip_with f (x :: s ++ [y])) = x :: s ++ [y].
Proof.
  intros Hx Hy. unfold Py.lstrip_with, Py.rstrip_with.
  change (x :: s ++ [y]) with ((x :: s) ++ [y]).
  rewrite rev_app_distr.
  change (rev [y] ++ rev (x :: s)) with (y :: rev (x :: s)).
  rewrite (dropwhile_head f y _ Hy).
  change (y :: rev (x :: s)) with (rev [y] ++ rev (x :: s)).
  rewrite <- rev_app_distr, rev_involutive.
  apply dropwhile_head. exact Hx.
Qed.

Lemma strip_with_single (f : ascii -> bool) (x : ascii) :
  f x = false -> Py.lstrip_with f (Py.rstrip_with f [x]) = [x].
Proof.
  intros Hx. unfold Py.lstrip_with, Py.rstrip_with. simpl. rewrite Hx. simpl.
  rewrite Hx. reflexivity.
Qed.

Lemma strip_with_digits (a : str) :
  digits a -> Py.lstrip_with Py.int_isspace (Py.rstrip_with Py.int_isspace a) = a.
Proof.
  intros [Ha Hall]. destruct a as [|x a]; [congruence|].
  simpl in Hall. apply andb_true_iff in Hall as [Hx Hall].
  destruct (exists_last (l := x :: a) ltac:(discriminate)) as (s & y & E).
  destruct s as [|x' s].
  - simpl in E. injection E as -> ->.
    apply strip_with_single, digit_not_int_space, Hx.
  - simpl in E. injection E as <- ->.
    apply strip_with_inner; apply digit_not_int_space; [exact Hx|].
    apply (forallb_last _ s y). exact Hall.
Qed.

Lemma digit_count_run (a : str) :
  forallb Py.is_digit a = true -> Py.digit_count a = length a.
Proof.
  unfold Py.digit_count. induction a as [|x a IH]; [reflexivity|].
  intros H. cbn [forallb] in H. apply andb_true_iff in H as [Hx H].
  cbn [filter]. rewrite Hx. cbn [length]. rewrite (IH H). reflexivity.
Qed.

Lemma convert_digits_run (a : str) :
  digits a -> length a <= Py.INT_MAX_STR_DIGITS ->
  Py.convert_digits a = Some (fold_left step a 0%N).
Proof.
  intros [Hne Hall] Hlen. unfold Py.convert_digits.
  rewrite (digit_count_run a Hall).
  replace (Nat.ltb Py.INT_MAX_STR_DIGITS (length a)) with false
    by (symmetry; apply Nat.ltb_ge; exact Hlen).
  apply parse_digits_run; [exact Hall|left; exact Hne].
Qed.

(** A run with more digits than the limit is refused. *)
Lemma convert_digits_long (a : str) :
  forallb Py.is_digit a = true -> Py.INT_MAX_STR_DIGITS < length a ->
  Py.convert_digits a = None.
Proof.
  intros Hall Hlen. unfold Py.convert_digits. rewrite (digit_count_run a Hall).
  replace (Nat.ltb Py.INT_MAX_STR_DIGITS (length a)) with true
    by (symmetry; apply Nat.ltb_lt; exact Hlen).
  reflexivity.
Qed.

Lemma int_of_str_run (a : str) :
  digits a -> Py.int_of_str a = option_map Z.of_N (Py.convert_digits a).
Proof.
  intros Ha. unfold Py.int_of_str. rewrite (strip_with_digits a Ha).
  destruct Ha as [Hne Hall]. destruct a as [|x a]; [congruence|].
  pose proof Hall as Hall'. cbn [forallb] in Hall'.
  apply andb_true_iff in Hall' as [Hx _].
  destruct (digit_not_sign x Hx) as [Hm Hp].
  destruct x as [[] [] [] [] [] [] [] []]; try reflexivity; congruence.
Qed.

(** [int] reads a run of digits within the limit as the number it
    denotes. *)
Lemma int_of_digits (a : str) :
  digits a -> length a <= Py.INT_MAX_STR_DIGITS ->
  Py.int_of_str a = Some (number a).
Proof.
  intros Ha Hlen. rewrite (int_of_str_run a Ha), (convert_digits_run a Ha Hlen).
  reflexivity.
Qed.

Lemma py_int_digits (a : str) :
  digits a -> length a <= Py.INT_MAX_STR_DIGITS ->
  py_int (VStr a) = ok (number a).
Proof.
  intros Ha Hlen. unfold py_int. rewrite (int_of_digits a Ha Hlen). reflexivity.
Qed.

(** [int] refuses a run of digits beyond the limit. *)
Lemma py_int_long (a : str) :
  digits a -> Py.INT_MAX_STR_DIGITS < length a ->
  py_int (VStr a) = raise ValueError.
Proof.
  intros Ha Hlen. unfold py_int.
  rewrite (int_of_str_run a Ha), (convert_digits_long a (proj2 Ha) Hlen).
  reflexivity.
Qed.

Lemma fold_chars_acc (d : Decimal.uint) :
  forall acc, fold_left step (Py.chars_of_uint d) (Npos acc) = Npos (Pos.of_uint_acc d acc).
Proof.
  induction d; intros acc;
    cbn [Py.chars_of_uint fold_left Pos.of_uint_acc]; try reflexivity;
    rewrite <- IHd; f_equal; unfold step;
    match goal with
    | |- context [Py.digit_value ?c] =>
        let v := eval vm_compute in (Py.digit_value c) in
        change (Py.digit_value c) with v
    end; lia.
Qed.

Lemma fold_chars (d : Decimal.uint) :
  fold_left step (Py.chars_of_uint d) 0%N = Pos.of_uint d.
Proof.
  induction d; cbn [Py.chars_of_uint fold_left Pos.of_uint];
    try reflexivity; try exact IHd;
    match goal with
    | |- context [step 0%N ?c] =>
        let v := eval vm_compute in (step 0%N c) in
        change (step 0%N c) with v
    end; apply fold_chars_acc.
Qed.

Lemma chars_digits (d : Decimal.uint) : forallb Py.is_digit (Py.chars_of_uint d) = true.
Proof. induction d; simpl; try reflexivity; exact IHd. Qed.

(** The text of a natural number is a run of digits that denotes it. *)
Lemma decimal_digits (z : Z) : (0 <= z)%Z -> digits (Py.decimal z).
Proof.
  intros Hz. destruct z as [|p|p]; simpl.
  - split; [discriminate|reflexivity].
  - split; [|apply chars_digits].
    pose proof (DecimalPos.Unsigned.to_uint_nonnil p) as Hn.
    destruct (Pos.to_uint p); simpl; congruence.
  - lia.
Qed.

Lemma number_decimal (z : Z) : (0 <= z)%Z -> number (Py.decimal z) = z.
Proof.
  intros Hz. destruct z as [|p|p]; simpl.
  - reflexivity.
  - rewrite number_fold, fold_chars, DecimalPos.Unsigned.of_to. reflexivity.
  - lia.
Qed.

Lemma number_nonneg (s : str) : (0 <= number s)%Z.
Proof. unfold number. lia. Qed.

(** [format] prints an integer whose text is within the limit. *)
Lemma format_int (z : Z) :
  (0 <= z)%Z -> length (Py.decimal z) <= Py.INT_MAX_STR_DIGITS ->
  format_field (VInt z) = ok (Py.decimal z).
Proof.
  intros Hz Hlen. unfold format_field, Py.str_of_int. cbv zeta.
  destruct z as [|p|p]; [| |lia];
    replace (Nat.ltb Py.INT_MAX_STR_DIGITS _) with false
      by (symmetry; apply Nat.ltb_ge; exact Hlen);
    reflexivity.
Qed.

Lemma format_zero : format_field (VInt 0) = ok (lit "0").
Proof. reflexivity. Qed.

Lemma within_limit_bounds (x : str) :
  within_limit x = true ->
  length x <= Py.INT_MAX_STR_DIGITS
  /\ length (Py.decimal (number x + 1)) <= Py.INT_MAX_STR_DIGITS.
Proof.
  unfold within_limit. intros H. apply andb_true_iff in H as [H1 H2].
  split; apply Nat.leb_le; assumption.
Qed.

(** ** Splitting a version at its dots *)

Lemma split_run (a : str) :
  forallb Py.is_digit a = true -> Py.split "." a = [a].
Proof.
  induction a as [|x a IH]; intros Hall; [reflexivity|].
  simpl in Hall. apply andb_true_iff in Hall as [Hx Hall].
  simpl. rewrite (digit_not_dot x Hx), (IH Hall). reflexivity.
Qed.

Lemma split_run_dot (a rest : str) :
  forallb Py.is_digit a = true ->
  Py.split "." (a ++ "." :: rest) = a :: Py.split "." rest.
Proof.
  induction a as [|x a IH]; intros Hall; [reflexivity|].
  simpl in Hall. apply andb_true_iff in Hall as [Hx Hall].
  simpl. rewrite (digit_not_dot x Hx), (IH Hall). reflexivity.
Qed.

Lemma split_version (a b c : str) :
  digits a -> digits b -> digits c ->
  Py.split "." (a ++ "." :: b ++ "." :: c) = [a; b; c].
Proof.
  intros [_ Ha] [_ Hb] [_ Hc].
  rewrite (split_run_dot a _ Ha), (split_run_dot b _ Hb), (split_run c Hc).
  reflexivity.
Qed.

Lemma triple_of_version (a b c : str) :
  digits a -> digits b -> digits c ->
  triple_of (a ++ "." :: b ++ "." :: c) = Some (number a, number b, number c).
Proof.
  intros Ha Hb Hc. unfold triple_of. rewrite (split_version a b c Ha Hb Hc).
  reflexivity.
Qed.

(** ** [next_version] *)

Lemma next_version_bumped (k : kind) (a b c : str) :
  digits a -> digits b -> digits c ->
  within_limit (part k a b c) = true ->
  next_version (mkNewRelease (a ++ "." :: b ++ "." :: c)) (kind_name k)
  = ok (bumped k a b c).
Proof.
  intros Ha Hb Hc Hlim. apply within_limit_bounds in Hlim as [Hin Hout].
  pose proof (number_nonneg (part k a b c)) as Hn.
  unfold next_version. cbn [current_version].
  rewrite (split_version a b c Ha Hb Hc).
  destruct k; cbn [kind_name part] in *;
    repeat match goal with
      | |- context [Py.str_eqb (lit ?x) (lit ?y)] =>
          let v := eval vm_compute in (Py.str_eqb (lit x) (lit y)) in
          change (Py.str_eqb (lit x) (lit y)) with v
      end; cbv iota.
  - rewrite (py_int_digits a Ha Hin). cbn [bind_result ok].
    rewrite (format_int (number a + 1) ltac:(lia) Hout), format_zero.
    reflexivity.
  - cbn [bind_result ok]. rewrite (py_int_digits b Hb Hin). cbn [bind_result ok].
    rewrite (format_int (number b + 1) ltac:(lia) Hout), format_zero.
    reflexivity.
  - cbn [bind_result ok]. rewrite (py_int_digits c Hc Hin). cbn [bind_result ok].
    rewrite (format_int (number c + 1) ltac:(lia) Hout).
    reflexivity.
Qed.

(** Beyond the limit of [int], the bump ends with [ValueError]. *)
Lemma next_version_long (k : kind) (a b c : str) :
  digits a -> digits b -> digits c ->
  Py.INT_MAX_STR_DIGITS < length (part k a b c) ->
  next_version (mkNewRelease (a ++ "." :: b ++ "." :: c)) (kind_name k)
  = raise ValueError.
Proof.
  intros Ha Hb Hc Hlen.
  unfold next_version. cbn [current_version].
  rewrite (split_version a b c Ha Hb Hc).
  destruct k; cbn [kind_name part] in *;
    repeat match goal with
      | |- context [Py.str_eqb (lit ?x) (lit ?y)] =>
          let v := eval vm_compute in (Py.str_eqb (lit x) (lit y)) in
          change (Py.str_eqb (lit x) (lit y)) with v
      end; cbv iota.
  - rewrite (py_int_long a Ha Hlen). reflexivity.
  - cbn [bind_result ok]. rewrite (py_int_long b Hb Hlen). reflexivity.
  - cbn [bind_result ok]. rewrite (py_int_long c Hc Hlen). reflexivity.
Qed.

Lemma digits_zero : digits (lit "0").
Proof. split; [discriminate|reflexivity]. Qed.

Lemma bumped_components (k : kind) (a b c : str) :
  digits a -> digits b -> digits c ->
  exists a' b' c',
    digits a' /\ digits b' /\ digits c' /\
    bumped k a b c = a' ++ "." :: b' ++ "." :: c' /\
    (number a', number b', number c') = bump k (number a, number b, number c).
Proof.
  intros Ha Hb Hc.
  pose proof (number_nonneg a). pose proof (number_nonneg b).
  pose proof (number_nonneg c).
  destruct k; cbn [bumped bump].
  - exists (Py.decimal (number a + 1)), (lit "0"), (lit "0").
    repeat split; try apply digits_zero; try (apply decimal_digits; lia).
    rewrite number_decimal by lia. reflexivity.
  - exists a, (Py.decimal (number b + 1)), (lit "0").
    repeat split; try apply digits_zero; try (apply decimal_digits; lia);
      try apply Ha.
    rewrite number_decimal by lia. reflexivity.
  - exists a, b, (Py.decimal (number c + 1)).
    repeat split; try (apply decimal_digits; lia); try apply Ha; try apply Hb.
    rewrite number_decimal by lia. reflexivity.
Qed.

Lemma bumped_is_version (k : kind) (a b c : str) :
  digits a -> digits b -> digits c -> is_version (bumped k a b c).
Proof.
  intros Ha Hb Hc.
  destruct (bumped_components k a b c Ha Hb Hc) as (a' & b' & c' & H1 & H2 & H3 & E & _).
  exists a', b', c'. repeat split; try apply H1; try apply H2; try apply H3. exact E.
Qed.

Lemma bumped_triple (k : kind) (a b c : str) :
  digits a -> digits b -> digits c ->
  triple_of (bumped k a b c) = Some (bump k (number a, number b, number c)).
Proof.
  intros Ha Hb Hc.
  destruct (bumped_components k a b c Ha Hb Hc) as (a' & b' & c' & H1 & H2 & H3 & E & Et).
  rewrite E, (triple_of_version a' b' c' H1 H2 H3), Et. reflexivity.
Qed.

Lemma bump_changes (k : kind) (t : Z * Z * Z) : bump k t <> t.
Proof.
  destruct t as [[x y] z]. destruct k; simpl; intros E; injection E; lia.
Qed.

Lemma bump_within_limit_version (k : kind) (a b c : str) :
  digits a -> digits b -> digits c ->
  bump_within_limit k (a ++ "." :: b ++ "." :: c) = within_limit (part k a b c).
Proof.
  intros Ha Hb Hc. unfold bump_within_limit.
  rewrite (split_version a b c Ha Hb Hc). reflexivity.
Qed.

(** A bump within the limit gives a version with another triple. *)
Lemma next_version_advances (k : kind) (v : str) :
  is_version v ->
  bump_within_limit k v = true ->
  exists s t,
    next_version (mkNewRelease v) (kind_name k) = ok s /\
    is_version s /\ triple_of v = Some t /\ triple_of s = Some (bump k t) /\ s <> v.
Proof.
  intros (a & b & c & Ha & Hb & Hc & ->) Hlim.
  rewrite (bump_within_limit_version k a b c Ha Hb Hc) in Hlim.
  exists (bumped k a b c), (number a, number b, number c).
  split; [apply next_version_bumped; assumption|].
  split; [apply bumped_is_version; assumption|].
  split; [apply triple_of_version; assumption|].
  split; [apply bumped_triple; assumption|].
  intros E.
  pose proof (bumped_triple k a b c Ha Hb Hc) as Ht.
  rewrite E, (triple_of_version a b c Ha Hb Hc) in Ht.
  apply (bump_changes k (number a, number b, number c)). congruence.
Qed.

(** ** Lines, stripping and replacing *)


Lemma written_from (lines : list str) :
  forall text, fold_left (fun t line => t ++ line) lines text = text ++ concat lines.
Proof.
  induction lines as [|l lines IH]; intros text; simpl.
  - symmetry. apply app_nil_r.
  - rewrite IH, app_assoc. reflexivity.
Qed.

Lemma written_concat (lines : list str) : written lines = concat lines.
Proof. unfold written. rewrite written_from. reflexivity. Qed.

Lemma rewrite_lines_map (search_string current next : str) (infile : list str) :
  forall lines,
    rewrite_lines search_string current next infile lines
    = lines ++ map (rewrite_line search_string current next) infile.
Proof.
  induction infile as [|l infile IH]; intros lines; simpl.
  - symmetry. apply app_nil_r.
  - rewrite IH, <- app_assoc. reflexivity.
Qed.

Lemma take_drop (f : ascii -> bool) (s : str) :
  Py.takewhile f s ++ Py.dropwhile f s = s.
Proof.
  induction s as [|c s IH]; [reflexivity|].
  simpl. destruct (f c); [simpl; rewrite IH|]; reflexivity.
Qed.

Lemma takewhile_all (f : ascii -> bool) (s : str) :
  forallb f (Py.takewhile f s) = true.
Proof.
  induction s as [|c s IH]; [reflexivity|].
  simpl. destruct (f c) eqn:E; [simpl; rewrite E, IH|]; reflexivity.
Qed.

Lemma forallb_rev (f : ascii -> bool) (s : str) :
  forallb f (rev s) = forallb f s.
Proof.
  induction s as [|c s IH]; [reflexivity|].
  simpl. rewrite forallb_app, IH. simpl. rewrite andb_true_r. apply andb_comm.
Qed.

(** A line is its stripped text between two runs of white space. *)
Lemma strip_decompose (line : str) :
  exists lead trail,
    forallb Py.isspace lead = true /\ forallb Py.isspace trail = true /\
    line = lead ++ Py.strip line ++ trail.
Proof.
  unfold Py.strip, Py.lstrip_with.
  exists (Py.takewhile Py.isspace (Py.rstrip_with Py.isspace line)),
         (rev (Py.takewhile Py.isspace (rev line))).
  split; [apply takewhile_all|].
  split; [rewrite forallb_rev; apply takewhile_all|].
  rewrite app_assoc, take_drop. unfold Py.rstrip_with.
  rewrite <- rev_app_distr, take_drop, rev_involutive. reflexivity.
Qed.

Lemma dropwhile_run (f : ascii -> bool) (sp : str) (x : ascii) (s : str) :
  forallb f sp = true -> f x = false -> Py.dropwhile f (sp ++ x :: s) = x :: s.
Proof.
  intros Hsp Hx. induction sp as [|c sp IH].
  - apply dropwhile_head. exact Hx.
  - simpl in Hsp. apply andb_true_iff in Hsp as [Hc Hsp].
    simpl. rewrite Hc. apply IH. exact Hsp.
Qed.

(** Stripping removes exactly the white space around a text that
    neither starts nor ends with white space. *)
Lemma strip_padded (lead trail : str) (x y : ascii) (m : str) :
  forallb Py.isspace lead = true -> forallb Py.isspace trail = true ->
  Py.isspace x = false -> Py.isspace y = false ->
  Py.strip (lead ++ (x :: m ++ [y]) ++ trail) = x :: m ++ [y].
Proof.
  intros Hl Ht Hx Hy. unfold Py.strip, Py.lstrip_with, Py.rstrip_with.
  rewrite !rev_app_distr.
  change (x :: m ++ [y]) with ((x :: m) ++ [y]).
  rewrite rev_app_distr. change (rev [y]) with [y].
  rewrite <- !app_assoc. change ([y] ++ ?l) with (y :: l).
  rewrite dropwhile_run; [|rewrite forallb_rev; exact Ht|exact Hy].
  change (y :: rev (x :: m) ++ rev lead) with ([y] ++ rev (x :: m) ++ rev lead).
  rewrite !rev_app_distr, !rev_involutive. change (rev [y]) with [y].
  rewrite <- app_assoc. change ((x :: m) ++ [y]) with (x :: m ++ [y]).
  apply dropwhile_run; assumption.
Qed.

Lemma space_no_digit (s : str) : forallb Py.isspace s = true -> no_digit s = true.
Proof.
  unfold no_digit. induction s as [|c s IH]; [reflexivity|]. simpl.
  intros H. apply andb_true_iff in H as [Hc Hs]. rewrite (IH Hs), andb_true_r.
  destruct (Py.is_digit c) eqn:E; [|reflexivity].
  rewrite (digit_not_space c E) in Hc. discriminate.
Qed.

Lemma no_digit_app (s t : str) : no_digit (s ++ t) = no_digit s && no_digit t.
Proof. apply forallb_app. Qed.

Lemma startswith_app (p s : str) : Py.startswith p (p ++ s) = true.
Proof.
  induction p as [|x p IH]; [reflexivity|]. simpl.
  rewrite ascii_eqb_refl. exact IH.
Qed.

Lemma replace_go_skip (old new p rest : str) :
  Py.replace_go old new (length p) (p ++ rest) = Py.replace_go old new 0 rest.
Proof.
  induction p as [|x p IH]; [reflexivity|]. simpl. exact IH.
Qed.

(** An occurrence at the head is replaced, and the search resumes
    behind it. *)
Lemma replace_go_match (old new rest : str) :
  old <> [] ->
  Py.replace_go old new 0 (old ++ rest) = new ++ Py.replace_go old new 0 rest.
Proof.
  intros Hne. destruct old as [|d old]; [congruence|].
  change ((d :: old) ++ rest) with (d :: old ++ rest).
  cbn [Py.replace_go].
  change (d :: old ++ rest) with ((d :: old) ++ rest).
  rewrite startswith_app. f_equal.
  replace (length (d :: old) - 1) with (length old) by (simpl; lia).
  apply replace_go_skip.
Qed.

(** No occurrence of a text that starts with a digit begins at a
    character that is not a digit. *)
Lemma replace_go_pass (d : ascii) (old new pre rest : str) :
  Py.is_digit d = true -> no_digit pre = true ->
  Py.replace_go (d :: old) new 0 (pre ++ rest)
  = pre ++ Py.replace_go (d :: old) new 0 rest.
Proof.
  intros Hd. induction pre as [|c pre IH]; intros Hpre; [reflexivity|].
  unfold no_digit in Hpre. simpl in Hpre.
  apply andb_true_iff in Hpre as [Hc Hpre].
  change ((c :: pre) ++ rest) with (c :: pre ++ rest).
  cbn [Py.replace_go Py.startswith].
  destruct (Ascii.eqb d c) eqn:E.
  - apply Ascii.eqb_eq in E. subst c. rewrite Hd in Hc. discriminate.
  - simpl. rewrite (IH Hpre). reflexivity.
Qed.

Lemma version_head (v : str) :
  is_version v -> exists d v', v = d :: v' /\ Py.is_digit d = true.
Proof.
  intros (a & b & c & [Ha Halla] & _ & _ & ->).
  destruct a as [|d a]; [congruence|].
  simpl in Halla. apply andb_true_iff in Halla as [Hd _].
  exists d, (a ++ "." :: b ++ "." :: c). split; [reflexivity|exact Hd].
Qed.

(** In a line that holds [version='<current>',] between white space,
    [replace] changes the version and nothing else. *)
Lemma replace_version_line (current next lead trail : str) :
  is_version current ->
  forallb Py.isspace lead = true -> forallb Py.isspace trail = true ->
  Py.replace current next
    (lead ++ (lit "version='" ++ current ++ lit "',") ++ trail)
  = lead ++ (lit "version='" ++ next ++ lit "',") ++ trail.
Proof.
  intros Hv Hl Ht.
  destruct (version_head current Hv) as (d & v' & -> & Hd).
  unfold Py.replace.
  replace (lead ++ (lit "version='" ++ (d :: v') ++ lit "',") ++ trail)
    with ((lead ++ lit "version='") ++ (d :: v') ++ (lit "'," ++ trail) ++ [])
    by (repeat (rewrite <- app_assoc; simpl app); rewrite app_nil_r; reflexivity).
  rewrite (replace_go_pass d v' next _ _ Hd).
  - rewrite (replace_go_match (d :: v') next _ ltac:(discriminate)).
    rewrite (replace_go_pass d v' next _ _ Hd).
    + simpl Py.replace_go. rewrite app_nil_r.
      repeat (rewrite <- app_assoc; simpl app). reflexivity.
    + rewrite no_digit_app, (space_no_digit trail Ht). reflexivity.
  - rewrite no_digit_app, (space_no_digit lead Hl). reflexivity.
Qed.

(** ** Extraction of the current version *)

Lemma get_version_sound (line s : str) :
  get_version_from_line line = Some s -> is_version s.
Proof.
  unfold get_version_from_line, Py.re_search.
  destruct (Py.search_from VERSION_STRING true line) as [m|] eqn:E; [|discriminate].
  intros H. injection H as <-. apply (search_version line true m E).
Qed.

Lemma scan_version_sound (lines : list str) (v : str) :
  scan_version lines = Some v -> is_version v.
Proof.
  induction lines as [|line rest IH]; cbn [scan_version]; [discriminate|].
  destruct (Py.contains (lit "version=") line).
  - apply get_version_sound.
  - exact IH.
Qed.

(** What [extract_current_version] does, case by case. *)
Lemma extract_current_version_cases (w : world) :
  extract_current_version w =
  match setup_py w with
  | None => (raise FileNotFoundError, w)
  | Some text =>
      match scan_version (Py.readlines text) with
      | None => (raise TypeError, w)
      | Some v => (ok v, w)
      end
  end.
Proof.
  unfold extract_current_version, bind, read_setup_file, lift.
  destruct (setup_py w) as [text|]; [|reflexivity].
  unfold ok at 1. cbv beta iota.
  destruct (scan_version (Py.readlines text)) as [v|] eqn:E; [|reflexivity].
  rewrite (validate_version v (scan_version_sound _ _ E)). reflexivity.
Qed.

Lemma digits_lit_1 : digits (lit "1").
Proof. split; [discriminate|reflexivity]. Qed.

Lemma digits_lit_2 : digits (lit "2").
Proof. split; [discriminate|reflexivity]. Qed.

Lemma digits_lit_3 : digits (lit "3").
Proof. split; [discriminate|reflexivity]. Qed.

Lemma version_1_2_3 : is_version (lit "1.2.3").
Proof.
  exists (lit "1"), (lit "2"), (lit "3").
  split; [apply digits_lit_1|]. split; [apply digits_lit_2|].
  split; [apply digits_lit_3|reflexivity].
Qed.

(** ** The claims about versions *)

(** C1: for a current version made of three runs of digits [a], [b],
    [c] separated by dots and for each kind of release whose bumped
    component stays within the limit of the conversions between [int]
    and [str] (at most 4300 digits, before and after the bump),
    [next_version] returns the version of the table: major gives
    (a+1, 0, 0), minor gives (a, b+1, 0), patch gives (a, b, c+1); the
    components of higher order keep their text and those of lower
    order are zero. *)
Theorem next_version_table (k : kind) (a b c : str) :
  digits a -> digits b -> digits c ->
  within_limit (part k a b c) = true ->
  exists s,
    next_version (mkNewRelease (a ++ "." :: b ++ "." :: c)) (kind_name k) = ok s
    /\ s = match k with
           | Major => Py.decimal (number a + 1) ++ lit ".0.0"
           | Minor => a ++ "." :: Py.decimal (number b + 1) ++ lit ".0"
           | Patch => a ++ "." :: b ++ "." :: Py.decimal (number c + 1)
           end
    /\ triple_of (a ++ "." :: b ++ "." :: c) = Some (number a, number b, number c)
    /\ triple_of s
       = Some (match k with
               | Major => (number a + 1, 0, 0)%Z
               | Minor => (number a, number b + 1, 0)%Z
               | Patch => (number a, number b, number c + 1)%Z
               end).
Proof.
  intros Ha Hb Hc Hlim. exists (bumped k a b c). split; [|split; [|split]].
  - apply next_version_bumped; assumption.
  - destruct k; reflexivity.
  - apply triple_of_version; assumption.
  - rewrite (bumped_triple k a b c Ha Hb Hc). destruct k; reflexivity.
Qed.

Lemma next_version_table_witness :
  exists s,
    next_version (mkNewRelease (lit "1.2.3")) (lit "minor") = ok s
    /\ s = lit "1.3.0"
    /\ triple_of (lit "1.2.3") = Some (1, 2, 3)%Z
    /\ triple_of s = Some (1, 3, 0)%Z.
Proof.
  exact (next_version_table Minor (lit "1") (lit "2") (lit "3")
           digits_lit_1 digits_lit_2 digits_lit_3 eq_refl).
Defined.

(** C1 does not hold beyond the limit: a major component of 4301 digits is a
    run of digits, and the major bump ends with [ValueError]. *)
Lemma next_version_table_over_limit :
  digits (zeros ++ lit "1") /\ digits (lit "2") /\ digits (lit "3")
  /\ long_major = (zeros ++ lit "1") ++ "." :: lit "2" ++ "." :: lit "3"
  /\ next_version (mkNewRelease long_major) (lit "major") = raise ValueError.
Proof.
  assert (Ha : digits (zeros ++ lit "1")).
  { split; [discriminate|vm_compute; reflexivity]. }
  assert (E : long_major = (zeros ++ lit "1") ++ "." :: lit "2" ++ "." :: lit "3").
  { unfold long_major. rewrite <- app_assoc. reflexivity. }
  split; [exact Ha|]. split; [exact digits_lit_2|]. split; [exact digits_lit_3|].
  split; [exact E|]. rewrite E.
  apply (next_version_long Major _ _ _ Ha digits_lit_2 digits_lit_3).
  cbn [part]. unfold zeros. rewrite length_app, repeat_length.
  unfold Py.INT_MAX_STR_DIGITS. cbn [lit String.list_ascii_of_string length]. lia.
Qed.

Lemma bump_within_limit_bumped (k : kind) (a b c : str) :
  digits a -> digits b -> digits c ->
  length (Py.decimal (number (part k a b c) + 1)) <= Py.INT_MAX_STR_DIGITS ->
  length (Py.decimal (number (part k a b c) + 2)) <= Py.INT_MAX_STR_DIGITS ->
  bump_within_limit k (bumped k a b c) = true.
Proof.
  intros Ha Hb Hc H1 H2.
  pose proof (number_nonneg (part k a b c)) as Hn.
  assert (Hd : digits (Py.decimal (number (part k a b c) + 1)))
    by (apply decimal_digits; lia).
  assert (W : within_limit (Py.decimal (number (part k a b c) + 1)) = true).
  { unfold within_limit. rewrite number_decimal by lia.
    replace (number (part k a b c) + 1 + 1)%Z with (number (part k a b c) + 2)%Z
      by lia.
    apply andb_true_iff. split; apply Nat.leb_le; assumption. }
  destruct k; cbn [bumped part] in *.
  - rewrite (bump_within_limit_version Major _ _ _ Hd digits_zero digits_zero).
    exact W.
  - rewrite (bump_within_limit_version Minor _ _ _ Ha Hd digits_zero).
    exact W.
  - rewrite (bump_within_limit_version Patch _ _ _ Ha Hb Hd).
    exact W.
Qed.

(** C7: within the limit of the conversions between [int] and [str], a
    bump of a version gives another version, and the same bump applied
    to the result gives yet another one: the bump is not idempotent. *)
Theorem bump_not_idempotent (k : kind) (v : str) :
  is_version v ->
  bump_twice_within_limit k v = true ->
  exists s1 s2,
    next_version (mkNewRelease v) (kind_name k) = ok s1 /\ s1 <> v /\
    next_version (mkNewRelease s1) (kind_name k) = ok s2 /\ s2 <> s1.
Proof.
  intros Hv Hlim.
  destruct Hv as (a & b & c & Ha & Hb & Hc & ->).
  unfold bump_twice_within_limit in Hlim.
  rewrite (split_version a b c Ha Hb Hc) in Hlim.
  apply andb_true_iff in Hlim as [Hlim H2]. apply Nat.leb_le in H2.
  destruct (within_limit_bounds _ Hlim) as [_ H1].
  assert (Hv : is_version (a ++ "." :: b ++ "." :: c))
    by (exists a, b, c; repeat split; try apply Ha; try apply Hb; apply Hc).
  assert (L1 : bump_within_limit k (a ++ "." :: b ++ "." :: c) = true)
    by (rewrite bump_within_limit_version; assumption).
  destruct (next_version_advances k _ Hv L1) as (s1 & t1 & E1 & Hv1 & _ & _ & N1).
  assert (Es : s1 = bumped k a b c).
  { rewrite (next_version_bumped k a b c Ha Hb Hc Hlim) in E1.
    unfold ok in E1. injection E1 as <-. reflexivity. }
  assert (L2 : bump_within_limit k s1 = true)
    by (rewrite Es; apply bump_within_limit_bumped; assumption).
  destruct (next_version_advances k s1 Hv1 L2) as (s2 & t2 & E2 & _ & _ & _ & N2).
  exists s1, s2. repeat split; assumption.
Qed.

Lemma bump_not_idempotent_witness :
  exists s1 s2,
    next_version (mkNewRelease (lit "1.2.3")) (lit "patch") = ok s1 /\
    s1 <> lit "1.2.3" /\
    next_version (mkNewRelease s1) (lit "patch") = ok s2 /\ s2 <> s1.
Proof.
  exact (bump_not_idempotent Patch (lit "1.2.3") version_1_2_3 eq_refl).
Defined.

(** C7 does not hold beyond the limit: a version whose patch component has
    4301 digits is valid, and its patch bump gives no version at all
    but ends with [ValueError]. *)
Lemma bump_not_idempotent_over_limit :
  is_version long_patch
  /\ next_version (mkNewRelease long_patch) (lit "patch") = raise ValueError.
Proof.
  assert (Hc : digits (zeros ++ lit "3")).
  { split; [discriminate|vm_compute; reflexivity]. }
  assert (E : long_patch = lit "1" ++ "." :: lit "2" ++ "." :: (zeros ++ lit "3")).
  { reflexivity. }
  split.
  - exists (lit "1"), (lit "2"), (zeros ++ lit "3").
    split; [exact digits_lit_1|]. split; [exact digits_lit_2|].
    split; [exact Hc|exact E].
  - rewrite E.
    apply (next_version_long Patch _ _ _ digits_lit_1 digits_lit_2 Hc).
    cbn [part]. unfold zeros. rewrite length_app, repeat_length.
    unfold Py.INT_MAX_STR_DIGITS. cbn [lit String.list_ascii_of_string length]. lia.
Qed.

(** C8: a string that [get_version_from_line] returns matches the
    version pattern from its first to its last character, so
    [validate_release_number] accepts it: the [NewReleaseError] of the
    validation is never raised for an extracted version. *)
Theorem extracted_version_is_valid (line s : str) :
  get_version_from_line line = Some s ->
  is_version s /\ validate_release_number (Some s) = ok tt.
Proof.
  intros H. pose proof (get_version_sound line s H) as Hv.
  split; [exact Hv|apply validate_version; exact Hv].
Qed.

Lemma extracted_version_is_valid_witness :
  is_version (lit "0.0.1") /\ validate_release_number (Some (lit "0.0.1")) = ok tt.
Proof.
  exact (extracted_version_is_valid (lit "    version='0.0.1',") (lit "0.0.1") eq_refl).
Defined.

(** C9: within the limit of the conversions between [int] and [str],
    the bump of a string that matches the version pattern from its
    first to its last character matches it again, and the validation
    accepts it. *)
Theorem next_version_keeps_format (k : kind) (v : str) :
  is_version v ->
  bump_within_limit k v = true ->
  exists s,
    next_version (mkNewRelease v) (kind_name k) = ok s /\
    is_version s /\ validate_release_number (Some s) = ok tt.
Proof.
  intros Hv Hlim.
  destruct (next_version_advances k v Hv Hlim) as (s & t & E & Hs & _).
  exists s. repeat split; [exact E|exact Hs|apply validate_version; exact Hs].
Qed.

Lemma next_version_keeps_format_witness :
  exists s,
    next_version (mkNewRelease (lit "1.2.3")) (lit "major") = ok s /\
    is_version s /\ validate_release_number (Some s) = ok tt.
Proof.
  exact (next_version_keeps_format Major (lit "1.2.3") version_1_2_3 eq_refl).
Defined.

(** C9 does not hold beyond the limit: a version whose minor component has
    4301 digits matches the pattern and passes the validation, and
    its minor bump returns no string but ends with [ValueError]. *)
Lemma next_version_keeps_format_over_limit :
  is_version long_minor
  /\ validate_release_number (Some long_minor) = ok tt
  /\ next_version (mkNewRelease long_minor) (lit "minor") = raise ValueError.
Proof.
  assert (Hb : digits (zeros ++ lit "2")).
  { split; [discriminate|vm_compute; reflexivity]. }
  assert (E : long_minor = lit "1" ++ "." :: (zeros ++ lit "2") ++ "." :: lit "3").
  { unfold long_minor. cbn [lit String.list_ascii_of_string app].
    rewrite <- app_assoc. reflexivity. }
  assert (Hv : is_version long_minor).
  { exists (lit "1"), (zeros ++ lit "2"), (lit "3").
    split; [exact digits_lit_1|]. split; [exact Hb|].
    split; [exact digits_lit_3|exact E]. }
  split; [exact Hv|]. split; [apply validate_version; exact Hv|].
  rewrite E.
  apply (next_version_long Minor _ _ _ digits_lit_1 Hb digits_lit_3).
  cbn [part]. unfold zeros. rewrite length_app, repeat_length.
  unfold Py.INT_MAX_STR_DIGITS. cbn [lit String.list_ascii_of_string length]. lia.
Qed.

(** C2: [extract_current_version] ends in one of three ways: the file
    is missing, the scan gave [None] and the validation raises
    [TypeError], or a valid version is returned. A manifest without a
    [version=] line and one with the line [version='1.2',] both end
    with [TypeError]; [NewReleaseError] is never raised. *)
Theorem extract_current_version_failure :
  (forall w,
      extract_current_version w = (raise FileNotFoundError, w)
      \/ extract_current_version w = (raise TypeError, w)
      \/ exists v, is_version v /\ extract_current_version w = (ok v, w))
  /\ (forall r t,
         extract_current_version (mkWorld (Some manifest_without_version) r t)
         = (raise TypeError, mkWorld (Some manifest_without_version) r t))
  /\ (forall r t,
         extract_current_version (mkWorld (Some manifest_short_version) r t)
         = (raise TypeError, mkWorld (Some manifest_short_version) r t)).
Proof.
  split; [|split].
  - intros w. rewrite extract_current_version_cases.
    destruct (setup_py w) as [text|]; [|left; reflexivity].
    destruct (scan_version (Py.readlines text)) as [v|] eqn:E.
    + right. right. exists v. split; [|reflexivity].
      apply (scan_version_sound _ _ E).
    + right. left. reflexivity.
  - intros r t. rewrite extract_current_version_cases. reflexivity.
  - intros r t. rewrite extract_current_version_cases. reflexivity.
Qed.

(** C10: [get_version_from_line] returns the leftmost substring of the
    line that is a version, not the whole quoted value: from the line
    [version='1.2.3.4',] it returns [1.2.3], which the validation
    accepts, and so does [extract_current_version] on a manifest with
    that line. *)
Theorem get_version_truncates :
  get_version_from_line (lit "version='1.2.3.4',") = Some (lit "1.2.3")
  /\ validate_release_number (Some (lit "1.2.3")) = ok tt
  /\ (forall r t,
         extract_current_version (mkWorld (Some (lit "version='1.2.3.4',")) r t)
         = (ok (lit "1.2.3"), mkWorld (Some (lit "version='1.2.3.4',")) r t))
  /\ (forall line s,
         get_version_from_line line = Some s ->
         is_version s /\
         exists pre post,
           line = pre ++ s ++ post /\
           forall p v q, line = p ++ v ++ q -> is_version v -> length pre <= length p).
Proof.
  split; [reflexivity|]. split; [reflexivity|]. split.
  - intros r t. rewrite extract_current_version_cases. reflexivity.
  - intros line s. unfold get_version_from_line, Py.re_search.
    destruct (Py.search_from VERSION_STRING true line) as [m|] eqn:E; [|discriminate].
    intros H. injection H as <-. apply (search_version line true m E).
Qed.

(** ** The manifest and the repository *)

Lemma in_list_In (x : str) (l : list str) : in_list x l = true <-> In x l.
Proof.
  unfold in_list. rewrite existsb_exists. split.
  - intros (y & Hy & E). apply str_eqb_eq in E. subst y. exact Hy.
  - intros H. exists x. split; [exact H|apply str_eqb_refl].
Qed.

Lemma version_line_shape (v : str) :
  version_line v = "v" :: (lit "ersion='" ++ v ++ lit "'") ++ [","].
Proof.
  unfold version_line. simpl. repeat (rewrite <- app_assoc; simpl). reflexivity.
Qed.

(** A line that strips to [version='<current>',] is rewritten to the
    same line with the next version; any other line is kept. *)
Lemma rewrite_line_cases (current next line : str) :
  is_version current ->
  (Py.strip line = version_line current /\
   exists lead trail,
     forallb Py.isspace lead = true /\ forallb Py.isspace trail = true /\
     line = lead ++ version_line current ++ trail /\
     rewrite_line (version_line current) current next line
     = lead ++ version_line next ++ trail /\
     Py.strip (rewrite_line (version_line current) current next line)
     = version_line next)
  \/ (Py.strip line <> version_line current /\
      rewrite_line (version_line current) current next line = line).
Proof.
  intros Hv. unfold rewrite_line.
  destruct (Py.str_eqb (Py.strip line) (version_line current)) eqn:E.
  - left. apply str_eqb_eq in E. split; [exact E|].
    destruct (strip_decompose line) as (lead & trail & Hl & Ht & Hline).
    rewrite E in Hline. exists lead, trail.
    assert (R : Py.replace current next line = lead ++ version_line next ++ trail).
    { rewrite Hline at 1. apply replace_version_line; assumption. }
    repeat split; try assumption. rewrite R.
    rewrite (version_line_shape next). apply strip_padded; try assumption; reflexivity.
  - right. apply str_eqb_neq in E. split; [exact E|reflexivity].
Qed.

Lemma Forall2_map_graph {A B : Type} (P : A -> B -> Prop) (f : A -> B) (l : list A) :
  (forall x, P x (f x)) -> Forall2 P l (map f l).
Proof.
  intros H. induction l as [|x l IH]; simpl; constructor; [apply H|exact IH].
Qed.


(** *** The shape of the lines of a file *)

Lemma eqb_NL_false (c : ascii) : Ascii.eqb c NL = false <-> c <> NL.
Proof.
  split.
  - intros H E. subst c. rewrite ascii_eqb_refl in H. discriminate.
  - intros H. destruct (Ascii.eqb c NL) eqn:E; [|reflexivity].
    apply Ascii.eqb_eq in E. contradiction.
Qed.

Lemma readlines_ok (text : str) : lines_ok (Py.readlines text).
Proof.
  induction text as [|c text IH]; [constructor|].
  cbn [Py.readlines]. destruct (Ascii.eqb c NL) eqn:E.
  - apply Ascii.eqb_eq in E. subst c.
    apply (lines_ok_cons [] _ (fun H => H) IH).
  - apply eqb_NL_false in E.
    inversion IH as [Hnil | body Hb Hne Hl | body ls Hb Hls Hl].
    + apply lines_ok_last; [|discriminate].
      intros [H|[]]. congruence.
    + apply lines_ok_last; [|discriminate].
      intros [H|H]; [congruence|contradiction].
    + change (lines_ok (((c :: body) ++ [NL]) :: ls)).
      apply lines_ok_cons; [|exact Hls].
      intros [H|H]; [congruence|contradiction].
Qed.

Lemma readlines_body (body : str) :
  ~ In NL body -> body <> [] -> Py.readlines body = [body].
Proof.
  induction body as [|c body IH]; intros Hb Hne; [congruence|].
  cbn [Py.readlines].
  assert (Hc : Ascii.eqb c NL = false).
  { apply eqb_NL_false. intros E. apply Hb. left. congruence. }
  rewrite Hc. destruct body as [|c' body]; [reflexivity|].
  rewrite IH; [reflexivity| |discriminate].
  intros H. apply Hb. right. exact H.
Qed.

Lemma readlines_line (body rest : str) :
  ~ In NL body ->
  Py.readlines ((body ++ [NL]) ++ rest) = (body ++ [NL]) :: Py.readlines rest.
Proof.
  induction body as [|c body IH]; intros Hb.
  - simpl. reflexivity.
  - assert (Hc : Ascii.eqb c NL = false).
    { apply eqb_NL_false. intros E. apply Hb. left. congruence. }
    change (((c :: body) ++ [NL]) ++ rest) with (c :: (body ++ [NL]) ++ rest).
    cbn [Py.readlines]. rewrite Hc, IH; [reflexivity|].
    intros H. apply Hb. right. exact H.
Qed.

(** Lines of that shape are read back as they were written. *)
Lemma readlines_written (ls : list str) :
  lines_ok ls -> Py.readlines (concat ls) = ls.
Proof.
  induction 1 as [| body Hb Hne | body ls Hb Hls IH].
  - reflexivity.
  - simpl. rewrite app_nil_r. apply readlines_body; assumption.
  - cbn [concat]. rewrite (readlines_line body _ Hb), IH. reflexivity.
Qed.

Lemma lines_ok_map (f : str -> str) (ls : list str) :
  (forall body, ~ In NL body -> body <> [] -> ~ In NL (f body) /\ f body <> []) ->
  (forall body, ~ In NL body ->
                exists body', ~ In NL body' /\ f (body ++ [NL]) = body' ++ [NL]) ->
  lines_ok ls -> lines_ok (map f ls).
Proof.
  intros Hlast Hline. induction 1 as [| body Hb Hne | body ls Hb Hls IH].
  - constructor.
  - destruct (Hlast body Hb Hne) as [H1 H2]. apply lines_ok_last; assumption.
  - destruct (Hline body Hb) as (body' & H1 & E). cbn [map]. rewrite E.
    apply lines_ok_cons; assumption.
Qed.

Lemma version_no_newline (v : str) : is_version v -> ~ In NL v.
Proof.
  intros (a & b & c & [_ Ha] & [_ Hb] & [_ Hc] & ->) H.
  assert (D : forall s, forallb Py.is_digit s = true -> ~ In NL s).
  { intros s Hs Hin. rewrite forallb_forall in Hs. specialize (Hs NL Hin).
    discriminate. }
  apply in_app_or in H as [H|[H|H]]; [exact (D a Ha H)|discriminate|].
  apply in_app_or in H as [H|[H|H]]; [exact (D b Hb H)|discriminate|exact (D c Hc H)].
Qed.

Lemma version_line_no_newline (v : str) : ~ In NL v -> ~ In NL (version_line v).
Proof.
  intros Hv H. unfold version_line in H.
  apply in_app_or in H as [H|H].
  - simpl in H. repeat (destruct H as [H|H]; [discriminate|]). exact H.
  - apply in_app_or in H as [H|H]; [exact (Hv H)|].
    simpl in H. repeat (destruct H as [H|H]; [discriminate|]). exact H.
Qed.

(** Rewriting keeps the shape of the lines when the next version has
    no newline in it. *)
Lemma rewrite_lines_ok (current next : str) (ls : list str) :
  is_version current -> ~ In NL next ->
  lines_ok ls ->
  lines_ok (map (rewrite_line (version_line current) current next) ls).
Proof.
  intros Hv Hn. apply lines_ok_map.
  - intros body Hb Hne.
    destruct (rewrite_line_cases current next body Hv)
      as [(_ & lead & trail & _ & _ & Hl & Hr & _) | (_ & Hr)];
      rewrite Hr; [|split; assumption].
    split.
    + intros H. apply in_app_or in H as [H|H].
      * apply Hb. rewrite Hl. apply in_or_app. left. exact H.
      * apply in_app_or in H as [H|H].
        -- exact (version_line_no_newline next Hn H).
        -- apply Hb. rewrite Hl. apply in_or_app. right.
           apply in_or_app. right. exact H.
    + rewrite version_line_shape. destruct lead; discriminate.
  - intros body Hb.
    destruct (rewrite_line_cases current next (body ++ [NL]) Hv)
      as [(_ & lead & trail & _ & _ & Hl & Hr & _) | (_ & Hr)];
      rewrite Hr; [|exists body; split; [assumption|reflexivity]].
    destruct (exists_last (l := trail)) as (trail' & y & ->).
    { intros ->. rewrite app_nil_r, version_line_shape in Hl.
      rewrite app_comm_cons, app_assoc in Hl.
      apply app_inj_tail in Hl as [_ Hl]. discriminate. }
    rewrite !app_assoc in Hl. apply app_inj_tail in Hl as [Hl <-].
    exists (lead ++ version_line next ++ trail'). split.
    + intros H. apply in_app_or in H as [H|H].
      * apply Hb. rewrite Hl. apply in_or_app. left. apply in_or_app. left. exact H.
      * apply in_app_or in H as [H|H].
        -- exact (version_line_no_newline next Hn H).
        -- apply Hb. rewrite Hl. apply in_or_app. right. exact H.
    + rewrite <- !app_assoc. reflexivity.
Qed.

Section Runs.

Variable git_accepts : effect -> world -> bool.

(** A run of [update_setup_file] on an existing manifest: the lines are
    rewritten, the file is written, and the file is staged. *)
Lemma update_setup_file_run (self : NewRelease) (next : str) (w : world) (text : str) :
  setup_py w = Some text ->
  let out := map (rewrite_line (version_line (current_version self))
                    (current_version self) next) (Py.readlines text) in
  update_setup_file git_accepts self next w
  = git git_accepts (GitAdd SETUP_FILE)
      (mkWorld (Some (concat out)) (is_repo w)
         (trace w ++ [WriteFile SETUP_FILE (concat out)])).
Proof.
  intros Hw out. unfold update_setup_file, bind, read_setup_file. rewrite Hw.
  unfold ok at 1. cbv beta iota.
  unfold write_setup_file, record. cbn [setup_py is_repo trace].
  rewrite written_concat, rewrite_lines_map. reflexivity.
Qed.

Lemma git_keeps_file (e : effect) (w : world) :
  setup_py (snd (git git_accepts e w)) = setup_py w
  /\ exists es, trace (snd (git git_accepts e w)) = trace w ++ es.
Proof.
  unfold git. destruct (git_accepts e w); simpl; split; try reflexivity.
  - exists [e]. reflexivity.
  - exists []. symmetry. apply app_nil_r.
Qed.

End Runs.

(** ** The claims about the manifest and the repository *)

(** C3: on the text of the manifest as text-mode input yields it,
    when the current version is valid, [update_setup_file] writes
    the lines of the manifest back in their order: a line whose
    stripped text is [version='<current>',] keeps its surrounding
    white space and holds [version='<next>',] instead, and every other
    line is written as it was read; with a valid next version, the
    lines of the new file are the lines written. *)
Theorem update_setup_file_rewrites
  (git_accepts : effect -> world -> bool) (self : NewRelease) (next : str)
  (w : world) (text : str) :
  is_version (current_version self) ->
  setup_py w = Some text ->
  exists out,
    setup_py (snd (update_setup_file git_accepts self next w)) = Some (concat out)
    /\ In (WriteFile SETUP_FILE (concat out))
          (trace (snd (update_setup_file git_accepts self next w)))
    /\ Forall2
         (fun line line' =>
            (Py.strip line = version_line (current_version self) /\
             exists lead trail,
               line = lead ++ version_line (current_version self) ++ trail /\
               line' = lead ++ version_line next ++ trail /\
               Py.strip line' = version_line next)
            \/ (Py.strip line <> version_line (current_version self) /\
                line' = line))
         (Py.readlines text) out
    /\ (is_version next -> Py.readlines (concat out) = out).
Proof.
  intros Hv Hw.
  exists (map (rewrite_line (version_line (current_version self))
                 (current_version self) next) (Py.readlines text)).
  rewrite (update_setup_file_run git_accepts self next w text Hw).
  match goal with
  | |- context [git git_accepts ?e ?w1] =>
      destruct (git_keeps_file git_accepts e w1) as (Hf & es & Ht)
  end.
  rewrite Hf, Ht. cbn [setup_py trace].
  split; [reflexivity|]. split; [|split].
  - apply in_or_app. left. apply in_or_app. right. left. reflexivity.
  - apply Forall2_map_graph. intros line.
    destruct (rewrite_line_cases (current_version self) next line Hv)
      as [(Hs & lead & trail & _ & _ & Hl & Hr & Hs') | (Hs & Hr)].
    + left. split; [exact Hs|]. exists lead, trail.
      rewrite <- Hr. repeat split; assumption.
    + right. split; assumption.
  - intros Hn. apply readlines_written, rewrite_lines_ok.
    + exact Hv.
    + apply version_no_newline. exact Hn.
    + apply readlines_ok.
Qed.

Lemma update_setup_file_rewrites_witness :
  exists out,
    setup_py (snd (update_setup_file git_always (mkNewRelease (lit "1.2.3"))
                     (lit "1.3.0") (mkWorld (Some manifest_1_2_3) true [])))
    = Some (concat out)
    /\ In (WriteFile SETUP_FILE (concat out))
          (trace (snd (update_setup_file git_always (mkNewRelease (lit "1.2.3"))
                         (lit "1.3.0") (mkWorld (Some manifest_1_2_3) true []))))
    /\ Forall2
         (fun line line' =>
            (Py.strip line = version_line (lit "1.2.3") /\
             exists lead trail,
               line = lead ++ version_line (lit "1.2.3") ++ trail /\
               line' = lead ++ version_line (lit "1.3.0") ++ trail /\
               Py.strip line' = version_line (lit "1.3.0"))
            \/ (Py.strip line <> version_line (lit "1.2.3") /\ line' = line))
         (Py.readlines manifest_1_2_3) out
    /\ (is_version (lit "1.3.0") -> Py.readlines (concat out) = out).
Proof.
  exact (update_setup_file_rewrites git_always (mkNewRelease (lit "1.2.3"))
           (lit "1.3.0") (mkWorld (Some manifest_1_2_3) true []) manifest_1_2_3
           version_1_2_3 eq_refl).
Defined.

(** C3 does not hold on the bytes of the file: where
    [os.linesep] is ['\n'], a manifest with the line ends ['\r\n'] is
    left with the line ends ['\n'], so the line [name='x',], which is
    not the version line, is not kept byte for byte. *)
Lemma update_setup_file_rewrites_bytes :
  rewritten_bytes [NL] (mkNewRelease (lit "1.2.3")) (lit "1.3.0") manifest_crlf
  = Some (lit "name='x'," ++ [NL] ++ lit "version='1.3.0'," ++ [NL])
  /\ lit "name='x'," ++ [NL] ++ lit "version='1.3.0'," ++ [NL]
     <> lit "name='x'," ++ [CR; NL] ++ lit "version='1.3.0'," ++ [CR; NL].
Proof. split; [reflexivity|discriminate]. Qed.

(** The manifest of the round trip of the specification, evaluated. *)
Example update_setup_file_round_trip :
  update_setup_file git_always (mkNewRelease (lit "1.2.3")) (lit "1.3.0")
    (mkWorld (Some manifest_1_2_3) true [])
  = let text := lit "    name='gi-releaser'," ++ [NL] ++ lit "    version='1.3.0',"
                  ++ [NL] ++ lit "    zip_safe=False," ++ [NL] in
    (ok tt, mkWorld (Some text) true [WriteFile SETUP_FILE text; GitAdd SETUP_FILE]).
Proof. reflexivity. Qed.

(** C4: a release outside [['major', 'minor', 'patch']] makes
    [update_version] raise [NewReleaseError] and leaves the world as it
    was: no write, no git command, no output; a release of the list
    passes the validation. *)
Theorem invalid_release_changes_nothing
  (git_accepts : effect -> world -> bool) (self : NewRelease) (release : str)
  (w : world) :
  (In release [lit "major"; lit "minor"; lit "patch"]
   /\ validate_release release = ok tt)
  \/ (~ In release [lit "major"; lit "minor"; lit "patch"]
      /\ update_version git_accepts self release w
         = (raise (NewReleaseError
                     (lit "Not a valid release. Should be one of ['major', 'minor', 'patch']")),
            w)).
Proof.
  destruct (in_list release BUMP_VERSIONS) eqn:E.
  - left. split; [apply in_list_In; exact E|].
    unfold validate_release. rewrite E. reflexivity.
  - right. split.
    + intros H. apply in_list_In in H. unfold BUMP_VERSIONS in E. congruence.
    + unfold update_version, bind, lift, validate_release. rewrite E. reflexivity.
Qed.

(** The run of the specification with the release ["revision"]. *)
Example revision_is_refused :
  update_version git_always (mkNewRelease (lit "1.2.3")) (lit "revision")
    (mkWorld (Some manifest_1_2_3) true [])
  = (raise (NewReleaseError
              (lit "Not a valid release. Should be one of ['major', 'minor', 'patch']")),
     mkWorld (Some manifest_1_2_3) true []).
Proof. reflexivity. Qed.




(** C6: [update_git] asks for the commit ['New release: v<v>'] first
    and for the tag ['v<v>'] after it, both with the same version; the
    tag is asked for only when the commit went through. *)
Theorem update_git_commit_then_tag
  (git_accepts : effect -> world -> bool) (v : str) (w : world) :
  let commit := GitCommit (lit "New release: v" ++ v) in
  let tag := CreateTag (lit "v" ++ v) in
  update_git git_accepts v w
  = if git_accepts commit w then
      if git_accepts tag (mkWorld (setup_py w) (is_repo w) (trace w ++ [commit]))
      then (ok tt, mkWorld (setup_py w) (is_repo w) (trace w ++ [commit; tag]))
      else (raise GitCommandError,
            mkWorld (setup_py w) (is_repo w) (trace w ++ [commit]))
    else (raise GitCommandError, w).
Proof.
  cbv zeta. unfold update_git, bind, git, record.
  destruct (git_accepts (GitCommit (lit "New release: v" ++ v)) w); [|reflexivity].
  cbn [setup_py is_repo trace].
  destruct (git_accepts _ _); [|reflexivity].
  rewrite <- app_assoc. reflexivity.
Qed.

(** The end-to-end run of the specification: a minor bump of 0.1.0. *)
Example minor_bump_end_to_end :
  let text := lit "name='x'" ++ [NL] ++ lit "version='0.1.0'," ++ [NL]
                ++ lit "zip_safe=False" ++ [NL] in
  let text' := lit "name='x'" ++ [NL] ++ lit "version='0.2.0'," ++ [NL]
                 ++ lit "zip_safe=False" ++ [NL] in
  main git_always [lit "new_release.py"; lit "minor"] (mkWorld (Some text) true [])
  = (ok tt,
     mkWorld (Some text') true
       [WriteFile SETUP_FILE text'; GitAdd SETUP_FILE;
        GitCommit (lit "New release: v0.2.0"); CreateTag (lit "v0.2.0");
        Print (lit "Old version: 0.1.0, new version: 0.2.0")]).
Proof. reflexivity. Qed.

(** ** Further properties: extraction and validation *)

Lemma eol_sound (bos : bool) (s rest : str) :
  Py.match_here [Py.Eol] bos s = Some rest -> rest = s /\ (s = [] \/ s = [NL]).
Proof.
  cbn [Py.match_here]. destruct (Py.at_eol s) eqn:E; [|discriminate].
  intros H. injection H as <-. split; [reflexivity|].
  destruct s as [|x [|y s]]; [left; reflexivity| |discriminate].
  simpl in E. apply Ascii.eqb_eq in E. subst x. right. reflexivity.
Qed.

(** What the anchored pattern matches is a version, alone or before a
    final newline. *)
Lemma anchored_match_sound (s rest : str) :
  Py.match_here ANCHORED_VERSION_STRING true s = Some rest ->
  exists v, is_version v /\ (s = v \/ s = v ++ [NL]).
Proof.
  unfold ANCHORED_VERSION_STRING, VERSION_STRING. simpl app.
  change (Py.match_here (Py.Bol :: ?r) true ?s) with (Py.match_here r true s).
  intros H.
  apply plus_sound in H as (a & s1 & Ha & Halla & -> & H).
  apply chr_sound in H as (s2 & -> & H).
  apply plus_sound in H as (b & s3 & Hb & Hallb & -> & H).
  apply chr_sound in H as (s4 & -> & H).
  apply plus_sound in H as (c & s5 & Hc & Hallc & -> & H).
  apply eol_sound in H as [_ Hs].
  exists (a ++ "." :: b ++ "." :: c). split.
  - exists a, b, c. unfold digits. repeat split; assumption.
  - destruct Hs as [-> | ->].
    + left. rewrite app_nil_r. reflexivity.
    + right. repeat (rewrite <- app_assoc; simpl). reflexivity.
Qed.

Lemma anchored_match_newline (v : str) :
  is_version v ->
  Py.match_here ANCHORED_VERSION_STRING true (v ++ [NL]) = Some [NL].
Proof.
  intros (a & b & c & [Ha Halla] & [Hb Hallb] & [Hc Hallc] & ->).
  unfold ANCHORED_VERSION_STRING, VERSION_STRING. simpl app.
  change (Py.match_here (Py.Bol :: ?r) true ?s) with (Py.match_here r true s).
  repeat (rewrite <- app_assoc; simpl app).
  rewrite (plus_greedy _ _ a _ Ha Halla (fun x t => dot_not_digit x t _)
             (fun x t b => chr_dot_digit _ x t b)).
  rewrite chr_cons, ascii_eqb_refl.
  rewrite (plus_greedy _ _ b _ Hb Hallb (fun x t => dot_not_digit x t _)
             (fun x t b => chr_dot_digit _ x t b)).
  rewrite chr_cons, ascii_eqb_refl.
  rewrite (plus_greedy _ _ c [NL] Hc Hallc).
  - reflexivity.
  - intros x t E. injection E as <- _. reflexivity.
  - intros x t b0 Hx. apply eol_digit. exact Hx.
Qed.

(** X1: [get_version_from_line] returns [None] exactly for the lines
    that hold no version anywhere. *)
Theorem get_version_none_iff (line : str) :
  get_version_from_line line = None <-> ~ has_version line.
Proof.
  unfold get_version_from_line, Py.re_search. split.
  - intros H (p & v & q & E & Hv).
    apply (search_complete line true p v q E Hv).
    destruct (Py.search_from VERSION_STRING true line); [discriminate|reflexivity].
  - intros H.
    destruct (Py.search_from VERSION_STRING true line) as [m|] eqn:E; [|reflexivity].
    exfalso. apply H.
    destruct (search_version line true m E) as (Hv & pre & post & El & _).
    exists pre, m, post. split; assumption.
Qed.

(** X2: [validate_release_number] accepts a string exactly when it is
    a version or a version followed by one newline (the [$] of the
    pattern also matches before a final newline); every other string
    raises [NewReleaseError] with the string in the message. *)
Theorem validate_release_number_accepts (s : str) :
  (validate_release_number (Some s) = ok tt
   <-> (is_version s \/ exists v, is_version v /\ s = v ++ [NL]))
  /\ (validate_release_number (Some s) = ok tt
      \/ validate_release_number (Some s)
         = raise (NewReleaseError (lit "Invalid release version: " ++ s))).
Proof.
  unfold validate_release_number, Py.re_match. split; [split|].
  - destruct (Py.match_here ANCHORED_VERSION_STRING true s) as [rest|] eqn:E;
      [|discriminate].
    intros _. destruct (anchored_match_sound s rest E) as (v & Hv & [-> | ->]).
    + left. exact Hv.
    + right. exists v. split; [exact Hv|reflexivity].
  - intros [Hv | (v & Hv & ->)].
    + rewrite (anchored_match_version s Hv). reflexivity.
    + rewrite (anchored_match_newline v Hv). reflexivity.
  - destruct (Py.match_here ANCHORED_VERSION_STRING true s); [left|right]; reflexivity.
Qed.

Lemma scan_version_first (before after : list str) (line : str) :
  forallb (fun l => negb (Py.contains (lit "version=") l)) before = true ->
  Py.contains (lit "version=") line = true ->
  scan_version (before ++ line :: after) = get_version_from_line line.
Proof.
  intros Hb Hl. induction before as [|l before IH].
  - cbn [app scan_version]. rewrite Hl. reflexivity.
  - cbn [forallb] in Hb. apply andb_true_iff in Hb as [Hl0 Hb].
    apply negb_true_iff in Hl0.
    cbn [app scan_version]. rewrite Hl0. apply IH. exact Hb.
Qed.

(** X3: the first line that contains ['version='] decides the
    extraction, whatever follows it: its leftmost version is returned,
    and when it holds none the run ends with [TypeError] even if a
    later line has a valid version. The world is left as it was. *)
Theorem extract_first_line_decides (w : world) (text : str)
  (before after : list str) (line : str) :
  setup_py w = Some text ->
  Py.readlines text = before ++ line :: after ->
  forallb (fun l => negb (Py.contains (lit "version=") l)) before = true ->
  Py.contains (lit "version=") line = true ->
  extract_current_version w
  = match get_version_from_line line with
    | Some v => (ok v, w)
    | None => (raise TypeError, w)
    end.
Proof.
  intros Hw Hr Hb Hl. rewrite extract_current_version_cases, Hw, Hr.
  rewrite (scan_version_first before after line Hb Hl). reflexivity.
Qed.

Lemma extract_first_line_decides_witness :
  extract_current_version
    (mkWorld (Some (lit "name='x'," ++ [NL] ++ lit "version='1.2'," ++ [NL]
                      ++ lit "version='1.2.3'," ++ [NL])) true [])
  = (raise TypeError,
     mkWorld (Some (lit "name='x'," ++ [NL] ++ lit "version='1.2'," ++ [NL]
                      ++ lit "version='1.2.3'," ++ [NL])) true []).
Proof.
  exact (extract_first_line_decides
           (mkWorld (Some (lit "name='x'," ++ [NL] ++ lit "version='1.2'," ++ [NL]
                             ++ lit "version='1.2.3'," ++ [NL])) true [])
           _ [lit "name='x'," ++ [NL]] [lit "version='1.2.3'," ++ [NL]]
           (lit "version='1.2'," ++ [NL]) eq_refl eq_refl eq_refl eq_refl).
Defined.

(** ** Further properties: [next_version] *)

Lemma split_nonempty (sep : ascii) (s : str) : Py.split sep s <> [].
Proof.
  destruct s as [|c s]; simpl; [discriminate|].
  destruct (Ascii.eqb c sep); [discriminate|].
  destruct (Py.split sep s); discriminate.
Qed.

Lemma split_length (s : str) : length (Py.split "." s) = S (dots s).
Proof.
  unfold dots. induction s as [|c s IH]; [reflexivity|].
  cbn [Py.split]. destruct (Ascii.eqb c ".") eqn:E.
  - apply Ascii.eqb_eq in E. subst c.
    rewrite count_occ_cons_eq by reflexivity. simpl. rewrite IH. reflexivity.
  - assert (c <> ".") by (intros ->; rewrite ascii_eqb_refl in E; discriminate).
    rewrite count_occ_cons_neq by assumption.
    destruct (Py.split "." s) as [|w ws] eqn:Es.
    + exfalso. exact (split_nonempty "." s Es).
    + exact IH.
Qed.

(** Joining the parts of a split with the separator gives the string
    back. *)
Lemma join_split (s : str) : join (lit ".") (Py.split "." s) = s.
Proof.
  induction s as [|c s IH]; [reflexivity|].
  cbn [Py.split]. destruct (Ascii.eqb c ".") eqn:E.
  - apply Ascii.eqb_eq in E. subst c.
    destruct (Py.split "." s) as [|w ws] eqn:Es.
    + exfalso. exact (split_nonempty "." s Es).
    + change (join (lit ".") ([] :: w :: ws)) with ("." :: join (lit ".") (w :: ws)).
      rewrite IH. reflexivity.
  - destruct (Py.split "." s) as [|w ws] eqn:Es.
    + exfalso. exact (split_nonempty "." s Es).
    + rewrite <- IH. destruct ws; reflexivity.
Qed.

Lemma split_three (s a b c : str) :
  Py.split "." s = [a; b; c] -> s = a ++ "." :: b ++ "." :: c.
Proof.
  intros E. rewrite <- (join_split s), E. reflexivity.
Qed.

(** X4: a current version that does not have exactly two dots makes
    [next_version] raise [ValueError], whatever the release. *)
Theorem next_version_wrong_dot_count (v release : str) :
  dots v <> 2 ->
  next_version (mkNewRelease v) release = raise ValueError.
Proof.
  intros Hd. unfold next_version. cbn [current_version].
  pose proof (split_length v) as Hl.
  destruct (Py.split "." v) as [|a [|b [|c [|d l]]]]; try reflexivity.
  simpl in Hl. congruence.
Qed.

Lemma next_version_wrong_dot_count_witness :
  next_version (mkNewRelease (lit "1.2")) (lit "minor") = raise ValueError.
Proof.
  refine (next_version_wrong_dot_count (lit "1.2") (lit "minor") _).
  vm_compute. discriminate.
Defined.

(** X5: [next_version] does not check the release: for a release that
    is none of ['major'], ['minor'], ['patch'] and a current version
    with two dots it returns the current version unchanged. *)
Theorem next_version_unknown_release (v release : str) :
  dots v = 2 ->
  in_list release BUMP_VERSIONS = false ->
  next_version (mkNewRelease v) release = ok v.
Proof.
  intros Hd Hr. unfold next_version. cbn [current_version].
  pose proof (split_length v) as Hl. rewrite Hd in Hl.
  destruct (Py.split "." v) as [|a [|b [|c [|d l]]]] eqn:E; try discriminate.
  apply split_three in E.
  unfold in_list, BUMP_VERSIONS in Hr. cbn [existsb] in Hr.
  apply orb_false_iff in Hr as [H1 Hr].
  apply orb_false_iff in Hr as [H2 Hr].
  apply orb_false_iff in Hr as [H3 _].
  rewrite H1. cbn [bind_result ok]. rewrite H2, H3. cbn [format_field].
  rewrite E. reflexivity.
Qed.

Lemma next_version_unknown_release_witness :
  next_version (mkNewRelease (lit "1.2.3")) (lit "revision") = ok (lit "1.2.3").
Proof.
  exact (next_version_unknown_release (lit "1.2.3") (lit "revision") eq_refl eq_refl).
Defined.

Lemma bump_lt (k : kind) (t : Z * Z * Z) : version_lt t (bump k t).
Proof.
  destruct t as [[a b] c]. destruct k; simpl; lia.
Qed.

(** X6: within the limit of the conversions between [int] and [str],
    the bump of a version is a greater version: the triple of the
    result is above the triple of the current version in the order by
    major, minor and patch. *)
Theorem next_version_increases (k : kind) (v : str) :
  is_version v ->
  bump_within_limit k v = true ->
  exists s t u,
    next_version (mkNewRelease v) (kind_name k) = ok s /\
    triple_of v = Some t /\ triple_of s = Some u /\ version_lt t u.
Proof.
  intros Hv Hlim.
  destruct (next_version_advances k v Hv Hlim) as (s & t & E & _ & Ht & Hs & _).
  exists s, t, (bump k t). repeat split; try assumption. apply bump_lt.
Qed.

Lemma next_version_increases_witness :
  exists s t u,
    next_version (mkNewRelease (lit "1.2.3")) (lit "minor") = ok s /\
    triple_of (lit "1.2.3") = Some t /\ triple_of s = Some u /\ version_lt t u.
Proof.
  exact (next_version_increases Minor (lit "1.2.3") version_1_2_3 eq_refl).
Defined.

(** X7: within the limit of the conversions between [int] and [str],
    a bump of higher order absorbs a bump of lower order made before
    it: a patch bump followed by a minor bump gives what the minor
    bump alone gives, and likewise for the other pairs. *)
Theorem higher_bump_absorbs_lower (k1 k2 : kind) (v : str) :
  rank k1 < rank k2 ->
  is_version v ->
  bump_within_limit k1 v = true ->
  bump_within_limit k2 v = true ->
  exists s1 s,
    next_version (mkNewRelease v) (kind_name k1) = ok s1 /\
    next_version (mkNewRelease s1) (kind_name k2) = ok s /\
    next_version (mkNewRelease v) (kind_name k2) = ok s.
Proof.
  intros Hk (a & b & c & Ha & Hb & Hc & ->) L1 L2.
  rewrite (bump_within_limit_version k1 a b c Ha Hb Hc) in L1.
  rewrite (bump_within_limit_version k2 a b c Ha Hb Hc) in L2.
  pose proof (number_nonneg a). pose proof (number_nonneg b).
  pose proof (number_nonneg c).
  exists (bumped k1 a b c), (bumped k2 a b c).
  split; [apply next_version_bumped; assumption|].
  split; [|apply next_version_bumped; assumption].
  destruct k1, k2; simpl in Hk; try lia; cbn [bumped part] in *.
  - apply (next_version_bumped Major a (Py.decimal (number b + 1)) (lit "0"));
      [assumption|apply decimal_digits; lia|apply digits_zero|assumption].
  - apply (next_version_bumped Major a b (Py.decimal (number c + 1)));
      [assumption|assumption|apply decimal_digits; lia|assumption].
  - apply (next_version_bumped Minor a b (Py.decimal (number c + 1)));
      [assumption|assumption|apply decimal_digits; lia|assumption].
Qed.

Lemma higher_bump_absorbs_lower_witness :
  exists s1 s,
    next_version (mkNewRelease (lit "1.2.3")) (lit "patch") = ok s1 /\
    next_version (mkNewRelease s1) (lit "minor") = ok s /\
    next_version (mkNewRelease (lit "1.2.3")) (lit "minor") = ok s.
Proof.
  refine (higher_bump_absorbs_lower Patch Minor (lit "1.2.3") _ version_1_2_3
            eq_refl eq_refl).
  simpl. lia.
Defined.

(** ** Further properties: the manifest after a rewrite *)

Lemma contains_unfold (sub s : str) :
  Py.contains sub s
  = (Py.startswith sub s
     || match s with
        | [] => false
        | _ :: s' => Py.contains sub s'
        end).
Proof. destruct s; reflexivity. Qed.

Lemma contains_app (sub pre post : str) :
  Py.contains sub (pre ++ sub ++ post) = true.
Proof.
  induction pre as [|c pre IH].
  - simpl app. rewrite contains_unfold, startswith_app. reflexivity.
  - simpl app. rewrite contains_unfold. cbv iota. rewrite IH. apply orb_true_r.
Qed.

Lemma version_line_contains (v lead trail : str) :
  Py.contains (lit "version=") (lead ++ version_line v ++ trail) = true.
Proof.
  unfold version_line.
  replace (lead ++ (lit "version='" ++ v ++ lit "',") ++ trail)
    with (lead ++ lit "version=" ++ ("'" :: v ++ lit "'," ++ trail))
    by (repeat (rewrite <- app_assoc; simpl app); reflexivity).
  apply contains_app.
Qed.

Lemma strip_match_contains (line v : str) :
  Py.strip line = version_line v -> Py.contains (lit "version=") line = true.
Proof.
  intros H. destruct (strip_decompose line) as (lead & trail & _ & _ & E).
  rewrite E, H. apply version_line_contains.
Qed.

(** The last [class+] of a pattern takes the whole run. *)
Lemma plus_all (cls : ascii -> bool) (a s : str) :
  a <> [] -> forallb cls a = true ->
  (forall x t, s = x :: t -> cls x = false) ->
  forall bos, Py.match_here [Py.Plus cls] bos (a ++ s) = Some s.
Proof.
  intros Ha Hall Hs. induction a as [|x a IH]; [congruence|]. intros bos.
  simpl in Hall. apply andb_true_iff in Hall as [Hx Hall].
  simpl app. rewrite plus_cons, Hx.
  destruct a as [|y a].
  - change ([] ++ s) with s. destruct s as [|z s].
    + rewrite plus_nil. reflexivity.
    + rewrite plus_cons, (Hs z s eq_refl). reflexivity.
  - rewrite (IH ltac:(discriminate) Hall false). reflexivity.
Qed.

(** A version followed by something else than a digit is matched
    whole. *)
Lemma version_match_exact (v q : str) (bos : bool) :
  is_version v ->
  (forall x t, q = x :: t -> Py.is_digit x = false) ->
  Py.match_here VERSION_STRING bos (v ++ q) = Some q.
Proof.
  intros (a & b & c & [Ha Halla] & [Hb Hallb] & [Hc Hallc] & ->) Hq.
  unfold VERSION_STRING.
  repeat (rewrite <- app_assoc; simpl app).
  rewrite (plus_greedy _ _ a _ Ha Halla (fun x t => dot_not_digit x t _)
             (fun x t b => chr_dot_digit _ x t b)).
  rewrite chr_cons, ascii_eqb_refl.
  rewrite (plus_greedy _ _ b _ Hb Hallb (fun x t => dot_not_digit x t _)
             (fun x t b => chr_dot_digit _ x t b)).
  rewrite chr_cons, ascii_eqb_refl.
  apply plus_all; assumption.
Qed.

Lemma search_unfold (p : Py.pattern) (bos : bool) (s : str) :
  Py.search_from p bos s
  = match Py.match_here p bos s with
    | Some rest => Some (Py.group0 s rest)
    | None =>
        match s with
        | [] => None
        | _ :: s' => Py.search_from p false s'
        end
    end.
Proof. destruct s; reflexivity. Qed.

(** The search passes over text without digits and returns the version
    behind it. *)
Lemma search_exact (pre v q : str) :
  no_digit pre = true -> is_version v ->
  (forall x t, q = x :: t -> Py.is_digit x = false) ->
  forall bos, Py.search_from VERSION_STRING bos (pre ++ v ++ q) = Some v.
Proof.
  intros Hpre Hv Hq. induction pre as [|x pre IH]; intros bos.
  - simpl app. rewrite search_unfold, (version_match_exact v q bos Hv Hq).
    rewrite group0_app. reflexivity.
  - unfold no_digit in Hpre. simpl in Hpre.
    apply andb_true_iff in Hpre as [Hx Hpre]. apply negb_true_iff in Hx.
    simpl app. rewrite search_unfold.
    unfold VERSION_STRING at 1. rewrite plus_cons, Hx.
    apply IH. exact Hpre.
Qed.

Lemma get_version_of_version_line (v lead trail : str) :
  is_version v -> forallb Py.isspace lead = true ->
  get_version_from_line (lead ++ version_line v ++ trail) = Some v.
Proof.
  intros Hv Hl. unfold get_version_from_line, Py.re_search, version_line.
  replace (lead ++ (lit "version='" ++ v ++ lit "',") ++ trail)
    with ((lead ++ lit "version='") ++ v ++ ("'" :: "," :: trail))
    by (repeat (rewrite <- app_assoc; simpl app); reflexivity).
  rewrite search_exact; [reflexivity| |exact Hv|].
  - rewrite no_digit_app, (space_no_digit lead Hl). reflexivity.
  - intros x t E. injection E as <- _. reflexivity.
Qed.

(** After the rewrite, the scan stops at the rewritten line and finds
    the next version there. *)
Lemma scan_rewritten (current next line : str) (lines : list str) :
  is_version current -> is_version next ->
  version_line_of lines = Some line ->
  Py.strip line = version_line current ->
  scan_version (map (rewrite_line (version_line current) current next) lines)
  = Some next.
Proof.
  intros Hc Hn. unfold version_line_of.
  induction lines as [|l lines IH]; intros Hf Hs; [discriminate|].
  cbn [find] in Hf. cbn [map scan_version].
  destruct (Py.contains (lit "version=") l) eqn:El.
  - injection Hf as ->.
    destruct (rewrite_line_cases current next line Hc)
      as [(_ & lead & trail & Hl & _ & _ & Hr & _) | (Hno & _)]; [|contradiction].
    rewrite Hr, version_line_contains.
    apply get_version_of_version_line; assumption.
  - destruct (rewrite_line_cases current next l Hc)
      as [(Hm & _) | (_ & Hr)].
    + rewrite (strip_match_contains l current Hm) in El. discriminate.
    + rewrite Hr, El. apply IH; assumption.
Qed.

Lemma rewrite_line_idempotent (current next line : str) :
  is_version current ->
  rewrite_line (version_line current) current next
    (rewrite_line (version_line current) current next line)
  = rewrite_line (version_line current) current next line.
Proof.
  intros Hc.
  destruct (rewrite_line_cases current next line Hc)
    as [(_ & lead & trail & Hl & Ht & _ & Hr & Hs) | (Hno & Hr)].
  - rewrite Hr in *. unfold rewrite_line at 1. rewrite Hs.
    destruct (Py.str_eqb (version_line next) (version_line current)) eqn:E;
      [|reflexivity].
    apply str_eqb_eq in E. unfold version_line in E.
    apply app_inv_head in E. apply app_inv_tail in E. subst next.
    apply replace_version_line; assumption.
  - rewrite Hr. unfold rewrite_line.
    apply str_eqb_neq in Hno. rewrite Hno. reflexivity.
Qed.

(** X8: when the first line of the manifest that contains ['version=']
    strips to [version='<current>',] and both versions are valid, the
    manifest written by [update_setup_file] is read back by
    [extract_current_version] as the next version. *)
Theorem update_then_extract
  (git_accepts : effect -> world -> bool) (self : NewRelease) (next : str)
  (w : world) (text line : str) :
  is_version (current_version self) -> is_version next ->
  setup_py w = Some text ->
  version_line_of (Py.readlines text) = Some line ->
  Py.strip line = version_line (current_version self) ->
  extract_current_version (snd (update_setup_file git_accepts self next w))
  = (ok next, snd (update_setup_file git_accepts self next w)).
Proof.
  intros Hc Hn Hw Hf Hs.
  rewrite extract_current_version_cases.
  rewrite (update_setup_file_run git_accepts self next w text Hw).
  match goal with
  | |- context [git git_accepts ?e ?w1] =>
      destruct (git_keeps_file git_accepts e w1) as (Hk & _)
  end.
  rewrite Hk. cbn [setup_py].
  rewrite readlines_written.
  - rewrite (scan_rewritten _ next line _ Hc Hn Hf Hs). reflexivity.
  - apply rewrite_lines_ok;
      [exact Hc|apply version_no_newline; exact Hn|apply readlines_ok].
Qed.

Lemma version_0_0_1 : is_version (lit "0.0.1").
Proof.
  exists (lit "0"), (lit "0"), (lit "1").
  repeat split; try discriminate; reflexivity.
Qed.

Lemma version_0_0_2 : is_version (lit "0.0.2").
Proof.
  exists (lit "0"), (lit "0"), (lit "2").
  repeat split; try discriminate; reflexivity.
Qed.

Lemma update_then_extract_witness :
  extract_current_version
    (snd (update_setup_file git_always (mkNewRelease (lit "0.0.1")) (lit "0.0.2")
            (mkWorld (Some repo_setup_py) true [])))
  = (ok (lit "0.0.2"),
     snd (update_setup_file git_always (mkNewRelease (lit "0.0.1")) (lit "0.0.2")
            (mkWorld (Some repo_setup_py) true []))).
Proof.
  exact (update_then_extract git_always (mkNewRelease (lit "0.0.1")) (lit "0.0.2")
           (mkWorld (Some repo_setup_py) true []) repo_setup_py
           (lit "    version='0.0.1'," ++ [NL])
           version_0_0_1 version_0_0_2 eq_refl eq_refl eq_refl).
Defined.

(** X9: for one object, a second [update_setup_file] with the same
    next version leaves the manifest as the first one wrote it. *)
Theorem update_setup_file_idempotent
  (git_accepts : effect -> world -> bool) (self : NewRelease) (next : str)
  (w : world) (text : str) :
  is_version (current_version self) -> is_version next ->
  setup_py w = Some text ->
  setup_py (snd (update_setup_file git_accepts self next
                   (snd (update_setup_file git_accepts self next w))))
  = setup_py (snd (update_setup_file git_accepts self next w)).
Proof.
  intros Hc Hn Hw.
  assert (H1 : setup_py (snd (update_setup_file git_accepts self next w))
               = Some (concat (map (rewrite_line (version_line (current_version self))
                                      (current_version self) next)
                                 (Py.readlines text)))).
  { rewrite (update_setup_file_run git_accepts self next w text Hw).
    match goal with
    | |- context [git git_accepts ?e ?w1] =>
        destruct (git_keeps_file git_accepts e w1) as (Hk & _)
    end.
    rewrite Hk. reflexivity. }
  rewrite (update_setup_file_run git_accepts self next _ _ H1).
  match goal with
  | |- context [git git_accepts ?e ?w1] =>
      destruct (git_keeps_file git_accepts e w1) as (Hk & _)
  end.
  rewrite Hk, H1. cbn [setup_py]. f_equal. f_equal.
  rewrite readlines_written.
  - rewrite map_map. apply map_ext. intros l.
    apply rewrite_line_idempotent. exact Hc.
  - apply rewrite_lines_ok;
      [exact Hc|apply version_no_newline; exact Hn|apply readlines_ok].
Qed.

Lemma update_setup_file_idempotent_witness :
  setup_py (snd (update_setup_file git_always (mkNewRelease (lit "1.2.3")) (lit "1.3.0")
                   (snd (update_setup_file git_always (mkNewRelease (lit "1.2.3"))
                           (lit "1.3.0") (mkWorld (Some manifest_1_2_3) true [])))))
  = setup_py (snd (update_setup_file git_always (mkNewRelease (lit "1.2.3"))
                     (lit "1.3.0") (mkWorld (Some manifest_1_2_3) true []))).
Proof.
  refine (update_setup_file_idempotent git_always (mkNewRelease (lit "1.2.3"))
            (lit "1.3.0") (mkWorld (Some manifest_1_2_3) true []) manifest_1_2_3
            version_1_2_3 _ eq_refl).
  exists (lit "1"), (lit "3"), (lit "0").
  repeat split; try discriminate; reflexivity.
Defined.

(** ** Further properties: a whole run *)

Lemma validate_release_kind (k : kind) : validate_release (kind_name k) = ok tt.
Proof. destruct k; reflexivity. Qed.

Section Stages.

Variable git_accepts : effect -> world -> bool.

(** Once [next_version] has returned, with a release of the list and
    a manifest that exists, [update_version] reaches the git commands
    with the manifest rewritten. *)
Lemma update_version_run (self : NewRelease) (k : kind) (w : world)
  (text next : str) :
  next_version self (kind_name k) = ok next ->
  setup_py w = Some text ->
  update_version git_accepts self (kind_name k) w
  = bind (git git_accepts (GitAdd SETUP_FILE))
      (fun _ => bind (update_git git_accepts next)
                  (fun _ => print (report (current_version self) next)))
      (let text' := concat (map (rewrite_line (version_line (current_version self))
                                   (current_version self) next)
                              (Py.readlines text)) in
       mkWorld (Some text') (is_repo w) (trace w ++ [WriteFile SETUP_FILE text'])).
Proof.
  intros E Hw.
  unfold update_version. unfold bind at 1. unfold lift at 1.
  rewrite validate_release_kind. unfold ok at 1. cbv beta iota.
  unfold bind at 1. unfold lift at 1. rewrite E. unfold ok at 1. cbv beta iota.
  unfold bind at 1.
  rewrite (update_setup_file_run git_accepts self next w text Hw).
  reflexivity.
Qed.

(** When [next_version] raises, [update_version] ends there, with the
    world as it was. *)
Lemma update_version_stops (self : NewRelease) (k : kind) (w : world) (e : exn) :
  next_version self (kind_name k) = raise e ->
  update_version git_accepts self (kind_name k) w = (raise e, w).
Proof.
  intros E.
  unfold update_version. unfold bind at 1. unfold lift at 1.
  rewrite validate_release_kind. unfold ok at 1. cbv beta iota.
  unfold bind at 1. unfold lift at 1. rewrite E. reflexivity.
Qed.

Lemma init_cases (w : world) :
  init w =
  match setup_py w with
  | None => (raise FileNotFoundError, w)
  | Some text =>
      match scan_version (Py.readlines text) with
      | None => (raise TypeError, w)
      | Some v =>
          if is_repo w then (ok (mkNewRelease v), w)
          else (raise InvalidGitRepositoryError, w)
      end
  end.
Proof.
  unfold init. unfold bind at 1. rewrite extract_current_version_cases.
  destruct (setup_py w) as [text|]; [|reflexivity].
  destruct (scan_version (Py.readlines text)) as [v|]; [|reflexivity].
  unfold ok at 1. cbv beta iota. unfold bind, open_repo.
  destruct (is_repo w); reflexivity.
Qed.

Lemma main_run (prog release : str) (w : world) :
  main git_accepts [prog; release] w
  = match init w with
    | (inl e, w') => (inl e, w')
    | (inr self, w') => update_version git_accepts self release w'
    end.
Proof. reflexivity. Qed.

(** One git command: carried out and recorded, or refused. *)
Lemma git_run (e : effect) (w : world) :
  git git_accepts e w
  = if git_accepts e w
    then (ok tt, mkWorld (setup_py w) (is_repo w) (trace w ++ [e]))
    else (raise GitCommandError, w).
Proof. reflexivity. Qed.

Lemma git_tail_cases (next msg : str) (w1 : world) :
  bind (git git_accepts (GitAdd SETUP_FILE))
    (fun _ => bind (update_git git_accepts next) (fun _ => print msg)) w1
  = let after es := mkWorld (setup_py w1) (is_repo w1) (trace w1 ++ es) in
    let staged := GitAdd SETUP_FILE in
    let commit := GitCommit (lit "New release: v" ++ next) in
    let tag := CreateTag (lit "v" ++ next) in
    if git_accepts staged w1 then
      if git_accepts commit (after [staged]) then
        if git_accepts tag (after [staged; commit])
        then (ok tt, after [staged; commit; tag; Print msg])
        else (raise GitCommandError, after [staged; commit])
      else (raise GitCommandError, after [staged])
    else (raise GitCommandError, w1).
Proof.
  cbv zeta. unfold update_git, print.
  unfold bind at 1. rewrite git_run.
  destruct (git_accepts (GitAdd SETUP_FILE) w1); [|reflexivity].
  unfold ok at 1. cbv beta iota.
  unfold bind at 1. unfold bind at 1. rewrite git_run.
  cbn [setup_py is_repo trace].
  destruct (git_accepts (GitCommit _) _); [|reflexivity].
  unfold ok at 1. cbv beta iota. rewrite git_run.
  cbn [setup_py is_repo trace]. rewrite <- !app_assoc. cbn [app].
  destruct (git_accepts (CreateTag _) _); [|reflexivity].
  unfold ok at 1. cbv beta iota. unfold record. cbn [setup_py is_repo trace].
  rewrite <- !app_assoc. reflexivity.
Qed.

(** The git commands and the report that end [update_version]: they
    end well or with a refused command, leave the manifest alone and
    only add to the trace. *)
Lemma git_tail_outcomes (next msg : str) (w1 : world) :
  exists w',
    (bind (git git_accepts (GitAdd SETUP_FILE))
       (fun _ => bind (update_git git_accepts next) (fun _ => print msg)) w1
     = (ok tt, w')
     \/ bind (git git_accepts (GitAdd SETUP_FILE))
          (fun _ => bind (update_git git_accepts next) (fun _ => print msg)) w1
        = (raise GitCommandError, w'))
    /\ setup_py w' = setup_py w1
    /\ exists es, trace w' = trace w1 ++ es.
Proof.
  rewrite git_tail_cases. cbv zeta.
  destruct (git_accepts (GitAdd SETUP_FILE) w1).
  2:{ exists w1. split; [right; reflexivity|]. split; [reflexivity|].
      exists []. symmetry. apply app_nil_r. }
  destruct (git_accepts (GitCommit _) _).
  2:{ eexists. split; [right; reflexivity|]. cbn [setup_py trace].
      split; [reflexivity|]. eexists. reflexivity. }
  destruct (git_accepts (CreateTag _) _).
  2:{ eexists. split; [right; reflexivity|]. cbn [setup_py trace].
      split; [reflexivity|]. eexists. reflexivity. }
  eexists. split; [left; reflexivity|]. cbn [setup_py trace].
  split; [reflexivity|]. eexists. reflexivity.
Qed.

End Stages.

(** X10: no rollback. With a valid current version, a release of the
    list whose bump is within the limit of the conversions between
    [int] and [str], and an existing manifest, [update_version] rewrites the
    manifest and then stops at the first git command that is refused,
    keeping what was done before: the written file when staging fails,
    the staged file when the commit fails, the commit when the tag
    fails; the versions are printed only after the tag. *)
Theorem update_version_stages
  (git_accepts : effect -> world -> bool) (self : NewRelease) (k : kind)
  (w : world) (text : str) :
  is_version (current_version self) ->
  bump_within_limit k (current_version self) = true ->
  setup_py w = Some text ->
  exists next text',
    next_version self (kind_name k) = ok next /\
    text' = concat (map (rewrite_line (version_line (current_version self))
                           (current_version self) next) (Py.readlines text)) /\
    let after es := mkWorld (Some text') (is_repo w) (trace w ++ es) in
    let written := WriteFile SETUP_FILE text' in
    let staged := GitAdd SETUP_FILE in
    let commit := GitCommit (lit "New release: v" ++ next) in
    let tag := CreateTag (lit "v" ++ next) in
    update_version git_accepts self (kind_name k) w
    = if negb (git_accepts staged (after [written]))
      then (raise GitCommandError, after [written])
      else if negb (git_accepts commit (after [written; staged]))
      then (raise GitCommandError, after [written; staged])
      else if negb (git_accepts tag (after [written; staged; commit]))
      then (raise GitCommandError, after [written; staged; commit])
      else (ok tt, after [written; staged; commit; tag;
                          Print (report (current_version self) next)]).
Proof.
  intros Hv Hlim Hw. destruct self as [v]. cbn [current_version] in *.
  destruct (next_version_advances k v Hv Hlim) as (next & t & E & _).
  pose proof (update_version_run git_accepts (mkNewRelease v) k w text next E Hw)
    as R. cbn [current_version] in R.
  exists next, (concat (map (rewrite_line (version_line v) v next)
                          (Py.readlines text))).
  split; [exact E|]. split; [reflexivity|].
  cbv zeta. rewrite R. cbv zeta.
  unfold update_git, print.
  unfold bind at 1. rewrite git_run.
  destruct (git_accepts (GitAdd SETUP_FILE) _); [|reflexivity].
  cbn [negb setup_py is_repo trace]. unfold ok at 1. cbv beta iota.
  rewrite <- !app_assoc. cbn [app].
  unfold bind at 1. unfold bind at 1. rewrite git_run.
  destruct (git_accepts (GitCommit _) _); [|reflexivity].
  cbn [negb setup_py is_repo trace]. unfold ok at 1. cbv beta iota.
  rewrite <- !app_assoc. cbn [app].
  rewrite git_run.
  destruct (git_accepts (CreateTag _) _); [|reflexivity].
  cbn [negb setup_py is_repo trace]. unfold ok at 1. cbv beta iota.
  unfold record. cbn [setup_py is_repo trace].
  rewrite <- !app_assoc. reflexivity.
Qed.

Lemma update_version_stages_witness :
  exists next text',
    next_version (mkNewRelease (lit "1.2.3")) (lit "minor") = ok next /\
    text' = concat (map (rewrite_line (version_line (lit "1.2.3")) (lit "1.2.3") next)
                      (Py.readlines manifest_1_2_3)) /\
    let after es := mkWorld (Some text') true ([] ++ es) in
    let written := WriteFile SETUP_FILE text' in
    let staged := GitAdd SETUP_FILE in
    let commit := GitCommit (lit "New release: v" ++ next) in
    let tag := CreateTag (lit "v" ++ next) in
    update_version git_no_tag (mkNewRelease (lit "1.2.3")) (lit "minor")
      (mkWorld (Some manifest_1_2_3) true [])
    = if negb (git_no_tag staged (after [written]))
      then (raise GitCommandError, after [written])
      else if negb (git_no_tag commit (after [written; staged]))
      then (raise GitCommandError, after [written; staged])
      else if negb (git_no_tag tag (after [written; staged; commit]))
      then (raise GitCommandError, after [written; staged; commit])
      else (ok tt, after [written; staged; commit; tag;
                          Print (report (lit "1.2.3") next)]).
Proof.
  exact (update_version_stages git_no_tag (mkNewRelease (lit "1.2.3")) Minor
           (mkWorld (Some manifest_1_2_3) true []) manifest_1_2_3
           version_1_2_3 eq_refl eq_refl).
Defined.

(** The run above, evaluated: the tag is refused, the commit stays. *)
Example tag_refused_keeps_commit :
  update_version git_no_tag (mkNewRelease (lit "1.2.3")) (lit "minor")
    (mkWorld (Some manifest_1_2_3) true [])
  = let text' := lit "    name='gi-releaser'," ++ [NL] ++ lit "    version='1.3.0',"
                   ++ [NL] ++ lit "    zip_safe=False," ++ [NL] in
    (raise GitCommandError,
     mkWorld (Some text') true
       [WriteFile SETUP_FILE text'; GitAdd SETUP_FILE;
        GitCommit (lit "New release: v1.3.0")]).
Proof. reflexivity. Qed.



(** X12: an object that [__init__] returns holds a version that the
    validation accepts, the directory is a repository, and the
    construction has changed nothing. *)
Theorem init_establishes_version (w w' : world) (self : NewRelease) :
  init w = (ok self, w') ->
  w' = w /\ is_repo w = true /\ is_version (current_version self)
  /\ validate_release_number (Some (current_version self)) = ok tt.
Proof.
  rewrite init_cases.
  destruct (setup_py w) as [text|]; [|discriminate].
  destruct (scan_version (Py.readlines text)) as [v|] eqn:E; [|discriminate].
  destruct (is_repo w); [|discriminate].
  intros H. injection H as <- <-. cbn [current_version].
  pose proof (scan_version_sound _ _ E) as Hv.
  repeat split; [exact Hv|apply validate_version; exact Hv].
Qed.

Lemma init_establishes_version_witness :
  mkWorld (Some repo_setup_py) true [] = mkWorld (Some repo_setup_py) true []
  /\ is_repo (mkWorld (Some repo_setup_py) true []) = true
  /\ is_version (current_version (mkNewRelease (lit "0.0.1")))
  /\ validate_release_number (Some (current_version (mkNewRelease (lit "0.0.1"))))
     = ok tt.
Proof.
  exact (init_establishes_version (mkWorld (Some repo_setup_py) true [])
           (mkWorld (Some repo_setup_py) true []) (mkNewRelease (lit "0.0.1"))
           eq_refl).
Defined.

(** X13: called with another number of arguments than one, the script
    prints the usage message and does nothing else: it reads no file,
    runs no git command and ends without an exception. *)
Theorem main_usage
  (git_accepts : effect -> world -> bool) (argv : list str) (w : world) :
  length argv <> 2 ->
  main git_accepts argv w
  = (ok tt, mkWorld (setup_py w) (is_repo w) (trace w ++ [Print USAGE])).
Proof.
  intros H. destruct argv as [|a [|b [|c l]]]; try reflexivity.
  simpl in H. congruence.
Qed.

Lemma main_usage_witness :
  main git_always [lit "new_release.py"] (mkWorld None false [])
  = (ok tt, mkWorld None false ([] ++ [Print USAGE])).
Proof.
  refine (main_usage git_always [lit "new_release.py"] (mkWorld None false []) _).
  simpl. discriminate.
Defined.

(** [next_version] raises nothing but [ValueError]. *)
Lemma next_version_raises (self : NewRelease) (release : str) (e : exn) :
  next_version self release = raise e -> e = ValueError.
Proof.
  unfold next_version, py_int, format_field, bind_result, ok, raise.
  repeat match goal with
    | |- context [match ?x with _ => _ end] =>
        lazymatch x with
        | context [match _ with _ => _ end] => fail
        | _ => destruct x
        end
    end;
    intros H; try discriminate H; injection H as <-; reflexivity.
Qed.

(** X14: with a release of the list the script never ends with
    [NewReleaseError]: neither the validation of the extracted
    version nor the validation of the release raises it. *)
Theorem main_never_new_release_error
  (git_accepts : effect -> world -> bool) (prog : str) (k : kind) (w : world) :
  match fst (main git_accepts [prog; kind_name k] w) with
  | inl (NewReleaseError _) => False
  | _ => True
  end.
Proof.
  rewrite main_run, init_cases.
  destruct (setup_py w) as [text|] eqn:Hw; [|exact I].
  destruct (scan_version (Py.readlines text)) as [v|] eqn:E; [|exact I].
  destruct (is_repo w) eqn:Hr; [|exact I].
  unfold ok at 1. cbv beta iota.
  destruct (next_version (mkNewRelease v) (kind_name k)) as [e|next] eqn:En.
  - rewrite (update_version_stops git_accepts _ k w e En).
    rewrite (next_version_raises _ _ e En). exact I.
  - rewrite (update_version_run git_accepts _ k w text next En Hw).
    match goal with
    | |- context [bind _ (fun _ => bind _ (fun _ => print ?msg)) ?w1] =>
        destruct (git_tail_outcomes git_accepts next msg w1) as (w' & [R|R] & _)
    end; rewrite R; exact I.
Qed.

(** ** Further properties: from one run to the next *)

Lemma scan_version_find (lines : list str) :
  scan_version lines
  = match version_line_of lines with
    | Some line => get_version_from_line line
    | None => None
    end.
Proof.
  unfold version_line_of. induction lines as [|l lines IH]; [reflexivity|].
  cbn [scan_version find].
  destruct (Py.contains (lit "version=") l); [reflexivity|exact IH].
Qed.

Lemma scan_version_line (lines : list str) (line v : str) :
  version_line_of lines = Some line ->
  Py.strip line = version_line v -> is_version v ->
  scan_version lines = Some v.
Proof.
  intros Hf Hs Hv. rewrite scan_version_find, Hf.
  destruct (strip_decompose line) as (lead & trail & Hl & _ & E).
  rewrite E, Hs. apply get_version_of_version_line; assumption.
Qed.

(** X15: when the first line of the manifest that contains
    ['version='] strips to [version='<v>',] for a valid version [v],
    [extract_current_version] returns [v], whatever the white space
    around the line and whatever the other lines hold. *)
Theorem extract_version_line (w : world) (text line v : str) :
  setup_py w = Some text ->
  version_line_of (Py.readlines text) = Some line ->
  Py.strip line = version_line v ->
  is_version v ->
  extract_current_version w = (ok v, w).
Proof.
  intros Hw Hf Hs Hv. rewrite extract_current_version_cases, Hw.
  rewrite (scan_version_line _ line v Hf Hs Hv). reflexivity.
Qed.

Lemma extract_version_line_witness :
  extract_current_version (mkWorld (Some repo_setup_py) true [])
  = (ok (lit "0.0.1"), mkWorld (Some repo_setup_py) true []).
Proof.
  exact (extract_version_line (mkWorld (Some repo_setup_py) true []) repo_setup_py
           (lit "    version='0.0.1'," ++ [NL]) (lit "0.0.1")
           eq_refl eq_refl eq_refl version_0_0_1).
Defined.



(** The script on the [setup.py] of the repository, evaluated. *)
Example patch_bump_of_the_repository :
  exists w',
    main git_always [lit "new_release.py"; lit "patch"]
      (mkWorld (Some repo_setup_py) true []) = (ok tt, w')
    /\ extract_current_version w' = (ok (lit "0.0.2"), w')
    /\ Forall2 (fun line line' =>
                  line' = line
                  \/ (line = lit "    version='0.0.1'," ++ [NL]
                      /\ line' = lit "    version='0.0.2'," ++ [NL]))
         (Py.readlines repo_setup_py)
         (match setup_py w' with
          | Some text' => Py.readlines text'
          | None => []
          end).
Proof.
  eexists. split; [vm_compute; reflexivity|]. split; [vm_compute; reflexivity|].
  vm_compute.
  repeat (apply Forall2_cons;
          [first [left; reflexivity | right; split; reflexivity]|]).
  apply Forall2_nil.
Qed.
